(** * Pagination: [django/core/paginator.py]

    A shallow embedding of [Paginator], [Page] and [PageURLGenerator],
    and the properties their specification states about them.

    Conventions of the embedding.
    - Python integers are [Z].
    - A call that may raise returns a [result]: [Ok v] or [Raise e].
    - The paginated collection is a Python list, a [list A]; its
      [count()] method needs an argument, so [Paginator._get_count]
      always falls back on [len].
    - [hits / float(per_page)] is a quotient of binary64 floats.  A
      finite float is held as the rational it stands for; conversion
      and division round to the nearest binary64 value, ties to even,
      and an integer too large for a float raises [OverflowError]. *)

From Stdlib Require Import ZArith QArith Qround Qreduction.
From Stdlib Require Import List Bool Ascii String Lia.
Import ListNotations.

Local Open Scope Z_scope.

(** ** Exceptions and results *)

Inductive exn : Type :=
| PageNotAnInteger
| EmptyPage
| ZeroDivisionError
| OverflowError
| TypeError
| ValueError
| KeyError
| AttributeError
| NoReverseMatch.

Inductive result (A : Type) : Type :=
| Ok (a : A)
| Raise (e : exn).

Arguments Ok {A} a.
Arguments Raise {A} e.

Definition bind {A B : Type} (r : result A) (k : A -> result B) : result B :=
  match r with
  | Ok a => k a
  | Raise e => Raise e
  end.

Notation "x <- r ;; k" := (bind r (fun x => k))
  (at level 61, r at next level, right associativity).

Definition is_ok {A : Type} (r : result A) : bool :=
  match r with Ok _ => true | Raise _ => false end.

(** ** Binary64 floats *)

(** A Python float: a finite value, held as the rational it stands
    for, an infinity or a NaN. *)
Inductive float64 : Type :=
| Finite (q : Q)
| Infinity (negative : bool)
| NaN.

(** [num / den] rounded to the nearest integer, a tie going to the
    even one ([0 <= num], [0 < den]). *)
Definition round_half_even (num den : Z) : Z :=
  let q := num / den in
  let r := num mod den in
  match 2 * r ?= den with
  | Lt => q
  | Gt => q + 1
  | Eq => if Z.even q then q else q + 1
  end.

(** The integer part of the binary logarithm of [a / b]
    ([0 < a], [0 < b]). *)
Definition floor_log2 (a b : Z) : Z :=
  let d := Z.log2 a - Z.log2 b in
  if (if 0 <=? d then b * 2 ^ d <=? a else b <=? a * 2 ^ (- d)) then d
  else d - 1.

(** [m * 2^e] *)
Definition scaled (m e : Z) : Q :=
  if 0 <=? e then inject_Z (m * 2 ^ e) else m # Z.to_pos (2 ^ (- e)).

(** The binary64 value nearest to [a / b] ([0 < a], [0 < b]): a
    significand of 53 bits [m] at the exponent [e] of the quotient, no
    exponent below [-1074] (the subnormal numbers); [None] when the
    rounded value reaches [2^1024]. *)
Definition round64_pos (a b : Z) : option Q :=
  let e := Z.max (floor_log2 a b - 52) (-1074) in
  let m :=
    if 0 <=? e then round_half_even a (b * 2 ^ e)
    else round_half_even (a * 2 ^ (- e)) b in
  if (971 <? e) || ((e =? 971) && (m =? 2 ^ 53)) then None
  else Some (scaled m e).

(** Rounding of a rational to binary64, to the nearest value and ties
    to even; an infinity on overflow. *)
Definition round64 (q : Q) : float64 :=
  let q := Qred q in
  match Qnum q with
  | 0 => Finite 0%Q
  | Zpos a =>
      match round64_pos (Zpos a) (Zpos (Qden q)) with
      | Some r => Finite r
      | None => Infinity false
      end
  | Zneg a =>
      match round64_pos (Zpos a) (Zpos (Qden q)) with
      | Some r => Finite (- r)%Q
      | None => Infinity true
      end
  end.

(** [float(n)] for an integer [n], and the conversion of the integer
    operand of a float operation. *)
Definition float_of_int (n : Z) : result float64 :=
  match round64 (inject_Z n) with
  | Infinity _ => Raise OverflowError
  | f => Ok f
  end.

Definition float_is_zero (f : float64) : bool :=
  match f with
  | Finite q => Qeq_bool q 0%Q
  | _ => false
  end.

(** [x / y] on floats *)
Definition float_div (x y : float64) : result float64 :=
  if float_is_zero y then Raise ZeroDivisionError
  else
    match x, y with
    | NaN, _ | _, NaN => Ok NaN
    | Infinity _, Infinity _ => Ok NaN
    | Infinity s, Finite q => Ok (Infinity (xorb s (Qnum q <? 0)))
    | Finite _, Infinity _ => Ok (Finite 0%Q)
    | Finite p, Finite q => Ok (round64 (p / q)%Q)
    end.

(** [int(ceil(x))] *)
Definition int_ceil (x : float64) : result Z :=
  match x with
  | Finite q => Ok (Qceiling q)
  | Infinity _ => Raise OverflowError
  | NaN => Raise ValueError
  end.

(** ** Python values a page number may arrive as

    [int(number)] is the builtin; its behaviour on the values below is
    the one of Python 2: an [int] is itself, a [bool] is 0 or 1, a [str]
    (a byte string) is parsed as an optionally signed decimal numeral between optional
    white space ([ValueError] otherwise), a finite [float] is cut
    towards zero, an infinite one gives [OverflowError] and a NaN
    [ValueError], [None] gives [TypeError]. *)

Inductive pyobj : Type :=
| PyInt (z : Z)
| PyBool (b : bool)
| PyStr (s : string)
| PyFloat (f : float64)
| PyNone.

Definition is_space (c : ascii) : bool :=
  let n := nat_of_ascii c in
  ((9 <=? n) && (n <=? 13))%nat || (n =? 32)%nat.

Definition digit_of (c : ascii) : option Z :=
  let n := nat_of_ascii c in
  if ((48 <=? n) && (n <=? 57))%nat then Some (Z.of_nat (n - 48)) else None.

Fixpoint lstrip (s : list ascii) : list ascii :=
  match s with
  | c :: s' => if is_space c then lstrip s' else s
  | [] => []
  end.

Definition strip (s : list ascii) : list ascii :=
  rev (lstrip (rev (lstrip s))).

Fixpoint digits (acc : Z) (s : list ascii) : option Z :=
  match s with
  | [] => Some acc
  | c :: s' =>
      match digit_of c with
      | Some d => digits (10 * acc + d) s'
      | None => None
      end
  end.

Definition numeral (s : list ascii) : option Z :=
  match s with
  | [] => None
  | _ :: _ => digits 0 s
  end.

Definition int_of_str (s : string) : option Z :=
  match strip (list_ascii_of_string s) with
  | "-"%char :: s' => option_map Z.opp (numeral s')
  | "+"%char :: s' => numeral s'
  | s' => numeral s'
  end.

Definition py_int (o : pyobj) : result Z :=
  match o with
  | PyInt z => Ok z
  | PyBool b => Ok (if b then 1 else 0)
  | PyStr s =>
      match int_of_str s with
      | Some z => Ok z
      | None => Raise ValueError
      end
  | PyFloat (Finite q) => Ok (Z.quot (Qnum q) (Zpos (Qden q)))
  | PyFloat (Infinity _) => Raise OverflowError
  | PyFloat NaN => Raise ValueError
  | PyNone => Raise TypeError
  end.

(** ** Python list slicing and [range] *)

(** [l[lo:hi]] with integer bounds: a negative bound counts from the
    end, and both are clamped to [0 .. len(l)]. *)
Definition slice_index (len i : Z) : Z :=
  if i <? 0 then Z.max 0 (i + len) else Z.min i len.

Definition py_slice {A : Type} (l : list A) (lo hi : Z) : list A :=
  let len := Z.of_nat (List.length l) in
  let a := slice_index len lo in
  let b := slice_index len hi in
  firstn (Z.to_nat (b - a)) (skipn (Z.to_nat a) l).

(** [range(lo, hi)]: [lo, lo+1, ..., hi-1]. *)
Definition py_range (lo hi : Z) : list Z :=
  map (fun i => lo + Z.of_nat i) (seq 0 (Z.to_nat (hi - lo))).

(** ** Paginator *)

Section Paginator.

Context {A : Type}.

Record Paginator : Type := mkPaginator {
  object_list : list A;
  per_page : Z;
  orphans : Z;
  allow_empty_first_page : bool
}.

(** [Paginator._get_count] *)
Definition count (p : Paginator) : Z :=
  Z.of_nat (List.length (object_list p)).

(** [int(ceil(hits / float(per_page)))]: [float(per_page)] is called
    first, then the division converts [hits]. *)
Definition ceil_div_float (hits per_page : Z) : result Z :=
  y <- float_of_int per_page ;;
  x <- float_of_int hits ;;
  quotient <- float_div x y ;;
  int_ceil quotient.

(** [Paginator._get_num_pages] *)
Definition num_pages (p : Paginator) : result Z :=
  if (count p =? 0) && negb (allow_empty_first_page p) then Ok 0
  else
    let hits := Z.max 1 (count p - orphans p) in
    ceil_div_float hits (per_page p).

(** [Paginator._get_page_range] *)
Definition page_range (p : Paginator) : result (list Z) :=
  n <- num_pages p ;;
  Ok (py_range 1 (n + 1)).

(** [Paginator.validate_number] *)
Definition validate_number (p : Paginator) (number : pyobj) : result Z :=
  match py_int number with
  | Raise TypeError | Raise ValueError => Raise PageNotAnInteger
  | Raise e => Raise e
  | Ok number =>
      if number <? 1 then Raise EmptyPage
      else
        n <- num_pages p ;;
        if number >? n then
          if (number =? 1) && allow_empty_first_page p then Ok number
          else Raise EmptyPage
        else Ok number
  end.

Record Page : Type := mkPage {
  page_object_list : list A;
  number : Z;
  paginator : Paginator
}.

(** [Paginator.page] (with [_get_page], which builds a [Page]) *)
Definition page (p : Paginator) (number : pyobj) : result Page :=
  number <- validate_number p number ;;
  let bottom := (number - 1) * per_page p in
  let top := bottom + per_page p in
  let top := if top + orphans p >=? count p then count p else top in
  Ok (mkPage (py_slice (object_list p) bottom top) number p).

(** ** Page *)

(** [Page.__len__] *)
Definition page_len (pg : Page) : Z :=
  Z.of_nat (List.length (page_object_list pg)).

(** [Page.has_next] *)
Definition has_next (pg : Page) : result bool :=
  n <- num_pages (paginator pg) ;;
  Ok (number pg <? n).

(** [Page.has_previous] *)
Definition has_previous (pg : Page) : bool :=
  number pg >? 1.

(** [Page.has_other_pages]: [has_previous() or has_next()], the second
    read only when the first is false. *)
Definition has_other_pages (pg : Page) : result bool :=
  if has_previous pg then Ok true else has_next pg.

(** [Page.next_page_number], [Page.previous_page_number] *)
Definition next_page_number (pg : Page) : result Z :=
  validate_number (paginator pg) (PyInt (number pg + 1)).

Definition previous_page_number (pg : Page) : result Z :=
  validate_number (paginator pg) (PyInt (number pg - 1)).

(** [Page.start_index] *)
Definition start_index (pg : Page) : Z :=
  if count (paginator pg) =? 0 then 0
  else per_page (paginator pg) * (number pg - 1) + 1.

(** [Page.end_index] *)
Definition end_index (pg : Page) : result Z :=
  n <- num_pages (paginator pg) ;;
  if number pg =? n then Ok (count (paginator pg))
  else Ok (number pg * per_page (paginator pg)).

(** [for i in range(lo, hi): page_range.append(i)] *)
Definition append_range (page_range : list (option Z)) (lo hi : Z)
  : list (option Z) :=
  fold_left (fun acc i => acc ++ [Some i]) (py_range lo hi) page_range.

(** The body of [Page.padded_page_range], once [self.number] and
    [self.paginator.num_pages] are read.  [if cap:] tests that [cap]
    is not zero. *)
Definition padded_range (num_pages number padding cap : Z)
  : list (option Z) :=
  let page_range := [] in
  let head_end := Z.min cap num_pages in
  let body_start := Z.max (head_end + 1) (number - padding) in
  let body_end := Z.min (number + padding) num_pages in
  let page_range :=
    if negb (cap =? 0) then
      let page_range := append_range page_range 1 (head_end + 1) in
      if body_start >? head_end + 1 then page_range ++ [None]
      else page_range
    else page_range in
  let page_range := append_range page_range body_start (body_end + 1) in
  if negb (cap =? 0) && (body_end <? num_pages) then
    let tail_start := Z.max body_end (num_pages - cap) + 1 in
    let page_range :=
      if tail_start >? body_end + 1 then page_range ++ [None]
      else page_range in
    append_range page_range tail_start (num_pages + 1)
  else page_range.

(** [Page.padded_page_range]; the defaults are [padding=3], [cap=1]. *)
Definition padded_page_range (pg : Page) (padding cap : Z)
  : result (list (option Z)) :=
  n <- num_pages (paginator pg) ;;
  Ok (padded_range n (number pg) padding cap).

(** What stands between the brackets of [page[...]]: an object, or a
    slice [lo:hi] whose bounds are integers or left out. *)
Inductive page_index : Type :=
| IndexObj (o : pyobj)
| IndexSlice (lo hi : option Z).

(** What [page[...]] gives: one item, a list of items, or one of the
    two exceptions of a sequence. *)
Inductive getitem_result : Type :=
| Item (a : A)
| Items (l : list A)
| RaiseTypeError
| RaiseIndexError.

(** [l[i]] for an integer [i]: a negative [i] counts from the end. *)
Definition list_getitem (l : list A) (i : Z) : getitem_result :=
  let len := Z.of_nat (List.length l) in
  let i := if i <? 0 then i + len else i in
  if (i <? 0) || (len <=? i) then RaiseIndexError
  else
    match nth_error l (Z.to_nat i) with
    | Some a => Item a
    | None => RaiseIndexError
    end.

(** [Page.__getitem__]: integers (and booleans, which are integers)
    and slices are passed on to the list of items. *)
Definition page_getitem (pg : Page) (index : page_index) : getitem_result :=
  match index with
  | IndexObj (PyInt i) => list_getitem (page_object_list pg) i
  | IndexObj (PyBool b) =>
      list_getitem (page_object_list pg) (if b then 1 else 0)
  | IndexObj _ => RaiseTypeError
  | IndexSlice lo hi =>
      let len := Z.of_nat (List.length (page_object_list pg)) in
      Items (py_slice (page_object_list pg)
               (match lo with Some a => a | None => 0 end)
               (match hi with Some b => b | None => len end))
  end.

End Paginator.

Arguments Paginator A : clear implicits.
Arguments Page A : clear implicits.
Arguments getitem_result A : clear implicits.

(** ** PageURLGenerator *)

(** Keyword arguments of a route and the query parameters, both keyed
    by strings.  [QueryDict.urlencode] and the resolver [reverse] belong
    to other modules and are parameters of this section. *)
Definition pydict : Type := list (string * pyobj).

Fixpoint dict_get (d : pydict) (k : string) : option pyobj :=
  match d with
  | [] => None
  | (k', v) :: d' => if String.eqb k k' then Some v else dict_get d' k
  end.

Definition dict_contains (d : pydict) (k : string) : bool :=
  match dict_get d k with Some _ => true | None => false end.

Definition dict_del (d : pydict) (k : string) : pydict :=
  filter (fun kv => negb (String.eqb k (fst kv))) d.

Definition dict_set (d : pydict) (k : string) (v : pyobj) : pydict :=
  dict_del d k ++ [(k, v)].

(** What stands between the brackets of [d[...]]: a key, or a slice
    [lo:hi]. *)
Inductive subscript : Type :=
| Index (k : string)
| Slice (lo : string) (hi : Z).

(** [d[sub]] read on a dict.  The key is hashed first and a slice
    object is unhashable, so [d[lo:hi]] raises [TypeError]. *)
Definition dict_getitem (d : pydict) (sub : subscript) : result pyobj :=
  match sub with
  | Slice _ _ => Raise TypeError
  | Index k =>
      match dict_get d k with
      | Some v => Ok v
      | None => Raise KeyError
      end
  end.

(** A URL held by the generator: a string, or [None]. *)
Definition truthy_url (u : option string) : bool :=
  match u with
  | Some s => negb (String.eqb s "")
  | None => false
  end.

Definition format_url (u : option string) : string :=
  match u with
  | Some s => s
  | None => "None"
  end.

Inductive url_method : Type :=
| by_kwarg
| by_querydict.

Record PageURLGenerator : Type := mkPageURLGenerator {
  url_name : string;
  url_args : option (list pyobj);
  url_kwargs : option pydict;
  current_app : option string;
  page_arg : string;
  base_url : option string;
  querydict : pydict;
  get_url_method : option url_method
}.

Definition set_get_url (g : PageURLGenerator) (m : url_method)
  : PageURLGenerator :=
  mkPageURLGenerator (url_name g) (url_args g) (url_kwargs g)
    (current_app g) (page_arg g) (base_url g) (querydict g) (Some m).

Definition set_querydict (g : PageURLGenerator) (q : pydict)
  : PageURLGenerator :=
  mkPageURLGenerator (url_name g) (url_args g) (url_kwargs g)
    (current_app g) (page_arg g) (base_url g) q (get_url_method g).

Section URLGenerator.

(** [reverse(url_name, args=, kwargs=, current_app=)]: the URL of the
    route, or [NoReverseMatch]. *)
Variable reverse :
  string -> option (list pyobj) -> option pydict -> option string ->
  result string.

(** [QueryDict.urlencode] *)
Variable urlencode : pydict -> string.

(** [PageURLGenerator.build_full_url] *)
Definition build_full_url (url : option string) (q : pydict)
  : option string :=
  match q with
  | [] => url
  | _ :: _ => Some (format_url url ++ "?" ++ urlencode q)%string
  end.

(** [PageURLGenerator.get_url_by_kwarg].  The statement
    [reverse_kwargs[self.page_arg: number]] reads the dict at a slice;
    it stores nothing. *)
Definition get_url_by_kwarg (g : PageURLGenerator) (number : Z)
  : result (option string) :=
  url <-
    (if (number =? 1) && truthy_url (base_url g) then Ok (base_url g)
     else
       let reverse_kwargs :=
         match url_kwargs g with
         | Some (_ :: _ as d) => d
         | _ => []
         end in
       _ <- dict_getitem reverse_kwargs (Slice (page_arg g) number) ;;
       u <- reverse (url_name g) (url_args g) (Some reverse_kwargs)
              (current_app g) ;;
       Ok (Some u)) ;;
  Ok (build_full_url url (querydict g)).

(** [PageURLGenerator.get_url_by_querydict] *)
Definition get_url_by_querydict (g : PageURLGenerator) (number : Z)
  : result (option string) :=
  let q :=
    if negb (number =? 1) then dict_set (querydict g) (page_arg g) (PyInt number)
    else querydict g in
  Ok (build_full_url (base_url g) q).

(** [try: ... except NoReverseMatch: ...] *)
Definition catch_no_reverse_match {A : Type} (r : result A) (handler : A)
  : result A :=
  match r with
  | Raise NoReverseMatch => Ok handler
  | _ => r
  end.

(** [PageURLGenerator.__init__]; [page_arg] defaults to ["page"]. *)
Definition PageURLGenerator_init (q : pydict) (url_name : string)
    (url_args : option (list pyobj)) (url_kwargs : option pydict)
    (current_app : option string) (page_arg : string)
  : result PageURLGenerator :=
  base_url <-
    catch_no_reverse_match
      (u <- reverse url_name url_args url_kwargs current_app ;; Ok (Some u))
      None ;;
  let self :=
    mkPageURLGenerator url_name url_args url_kwargs current_app page_arg
      base_url q None in
  querystring <-
    catch_no_reverse_match
      (_ <- get_url_by_kwarg self 1 ;; Ok false) true ;;
  if querystring : bool then
    if negb (truthy_url base_url) then Raise ValueError
    else
      let self := set_get_url self by_querydict in
      if dict_contains q page_arg
      then Ok (set_querydict self (dict_del q page_arg))
      else Ok self
  else Ok (set_get_url self by_kwarg).

(** [generator.get_url(number)]: the method [__init__] bound. *)
Definition get_url (g : PageURLGenerator) (number : Z)
  : result (option string) :=
  match get_url_method g with
  | Some by_kwarg => get_url_by_kwarg g number
  | Some by_querydict => get_url_by_querydict g number
  | None => Raise AttributeError
  end.

(** [self.<name>] called with one page number.  The class defines
    [get_url_by_kwarg], [get_url_by_querydict], [build_full_url] and
    [range_urls], and [__init__] sets [get_url]; a name that is none of
    the attributes raises [AttributeError], and the two methods that
    take other arguments raise [TypeError] on such a call. *)
Definition call_method (g : PageURLGenerator) (name : string) (number : Z)
  : result (option string) :=
  if String.eqb name "get_url" then get_url g number
  else if String.eqb name "get_url_by_kwarg" then get_url_by_kwarg g number
  else if String.eqb name "get_url_by_querydict"
       then get_url_by_querydict g number
  else if String.eqb name "build_full_url" then Raise TypeError
  else if String.eqb name "range_urls" then Raise TypeError
  else Raise AttributeError.

(** [if number:] on an entry of a page range *)
Definition truthy_entry (number : option Z) : bool :=
  match number with
  | Some n => negb (n =? 0)
  | None => false
  end.

(** The loop of [PageURLGenerator.range_urls], [urls] being the list
    built so far. *)
Fixpoint range_urls_loop (g : PageURLGenerator)
    (page_range : list (option Z)) (urls : list (option Z * option string))
  : result (list (option Z * option string)) :=
  match page_range with
  | [] => Ok urls
  | number :: rest =>
      url <-
        match number with
        | Some n =>
            if truthy_entry number then call_method g "build_url" n
            else Ok None
        | None => Ok None
        end ;;
      range_urls_loop g rest (urls ++ [(number, url)])
  end.

(** [PageURLGenerator.range_urls] *)
Definition range_urls (g : PageURLGenerator) (page_range : list (option Z))
  : result (list (option Z * option string)) :=
  range_urls_loop g page_range [].

End URLGenerator.

(** A resolver with the single route [widget_list], at
    [/widgets/list/], and one with no route at all. *)
Definition widget_routes (name : string) (args : option (list pyobj))
    (kwargs : option pydict) (app : option string) : result string :=
  if String.eqb name "widget_list" then Ok "/widgets/list/"%string
  else Raise NoReverseMatch.

Definition no_routes (name : string) (args : option (list pyobj))
    (kwargs : option pydict) (app : option string) : result string :=
  Raise NoReverseMatch.

(** A stand-in for [QueryDict.urlencode]: the keys, joined by [&]. *)
Definition keys_urlencode (q : pydict) : string :=
  String.concat "&" (map fst q).

(** ** The specification's words, as definitions *)

(** [n] is the ceiling of [a / b], for a positive [b]. *)
Definition is_ceiling (n a b : Z) : Prop :=
  (n - 1) * b < a <= n * b.

(** The ceiling of [a / b] in integer arithmetic. *)
Definition ceil_quot (a b : Z) : Z := (a + b - 1) / b.

(** "0 if count == 0 and empty-first-page disallowed; else
    ceil(max(1, count - orphans) / per_page)" *)
Definition num_pages_spec {A : Type} (p : Paginator A) : Z :=
  if (count p =? 0) && negb (allow_empty_first_page p) then 0
  else ceil_quot (Z.max 1 (count p - orphans p)) (per_page p).

(** The items of [l] at the indices [lo <= i < hi], in order. *)
Definition slice_spec {A : Type} (l : list A) (lo hi : Z) : list A :=
  map snd
    (filter (fun ix => (lo <=? Z.of_nat (fst ix)) && (Z.of_nat (fst ix) <? hi))
       (combine (seq 0 (List.length l)) l)).

(** "bottom = (number-1)*per_page, top = bottom+per_page; if
    top + orphans >= count, clamps top = count" *)
Definition bottom_of {A : Type} (p : Paginator A) (n : Z) : Z :=
  (n - 1) * per_page p.

Definition top_of {A : Type} (p : Paginator A) (n : Z) : Z :=
  if count p <=? bottom_of p n + per_page p + orphans p then count p
  else bottom_of p n + per_page p.

(** "fails with PageNotAnInteger if not integer-coercible; fails with
    EmptyPage if < 1; fails with EmptyPage if > num_pages unless
    number == 1 and allow_empty_first_page; returns the validated
    integer", the coercion failing with [TypeError] or [ValueError];
    another exception of the coercion is passed on. *)
Definition validate_number_spec (coerced : result Z) (num_pages : Z)
    (allow_empty_first_page : bool) : result Z :=
  match coerced with
  | Raise TypeError | Raise ValueError => Raise PageNotAnInteger
  | Raise e => Raise e
  | Ok n =>
      if n <? 1 then Raise EmptyPage
      else if (num_pages <? n) && negb ((n =? 1) && allow_empty_first_page)
      then Raise EmptyPage
      else Ok n
  end.

(** The region [a .. b], both ends included; empty when [b < a]. *)
Fixpoint upfrom (a : Z) (k : nat) : list Z :=
  match k with
  | O => []
  | S k' => a :: upfrom (a + 1) k'
  end.

Definition region (a b : Z) : list (option Z) :=
  map Some (upfrom a (Z.to_nat (b - a + 1))).

(** A gap marker between a region ending at [a] and one starting at
    [b], when they are not adjacent. *)
Definition gap (a b : Z) : list (option Z) :=
  if a + 1 <? b then [None] else [].

(** Steps 1 to 5 of the padded range. *)
Definition padded_range_spec (num_pages number padding cap : Z)
  : list (option Z) :=
  let head_end := Z.min cap num_pages in
  let body_start := Z.max (head_end + 1) (number - padding) in
  let body_end := Z.min (number + padding) num_pages in
  let tail_start := Z.max body_end (num_pages - cap) + 1 in
  (if 0 <? cap then region 1 head_end ++ gap head_end body_start else [])
  ++ region body_start body_end
  ++ (if (0 <? cap) && (body_end <? num_pages)
      then gap body_end tail_start ++ region tail_start num_pages
      else []).

(** The page numbers of a padded range, gap markers left out. *)
Definition pages_of (r : list (option Z)) : list Z :=
  flat_map (fun e => match e with Some n => [n] | None => [] end) r.

Fixpoint increasing (l : list Z) : bool :=
  match l with
  | a :: (b :: _) as l' => (a <? b) && increasing l'
  | _ => true
  end.

Fixpoint no_duplicate (l : list Z) : bool :=
  match l with
  | [] => true
  | a :: l' => negb (existsb (Z.eqb a) l') && no_duplicate l'
  end.

(** Every gap marker stands between a page [a] and a page [b] with
    [a + 1 < b]: it is neither first nor last, nor next to another
    marker, nor between adjacent pages.  [prev] is the entry before
    [r], [None] at the start and after a marker. *)
Fixpoint gaps_between (prev : option Z) (r : list (option Z)) : bool :=
  match r with
  | [] => true
  | Some n :: r' => gaps_between (Some n) r'
  | None :: r' =>
      match prev, r' with
      | Some a, Some b :: _ => (a + 1 <? b) && gaps_between None r'
      | _, _ => false
      end
  end.

(** The entries of [r] go on increasing after the page [last], each
    gap marker standing between two pages that are not adjacent. *)
Fixpoint chain (last : Z) (r : list (option Z)) : bool :=
  match r with
  | [] => true
  | Some n :: r' => (last <? n) && chain n r'
  | None :: r1 =>
      match r1 with
      | Some b :: r' => (last + 1 <? b) && chain b r'
      | _ => false
      end
  end.

Definition padded_range_invariant (r : list (option Z)) : bool :=
  no_duplicate (pages_of r) && increasing (pages_of r) && gaps_between None r.

(** "(number, url_or_none) pairs, preserving gap markers as
    (None, None)" *)
Definition range_urls_spec (url_of : Z -> option string)
    (page_range : list (option Z)) : list (option Z * option string) :=
  map (fun e => match e with
                | Some n => (Some n, url_of n)
                | None => (None, None)
                end) page_range.

(** Paginators over the list [0 .. n-1]. *)
Definition numbers (n : nat) : list Z := map Z.of_nat (seq 0 n).

(** * Properties *)

(** ** Arithmetic of the page count *)

Lemma ceil_quot_is_ceiling (a b : Z) :
  0 < b -> is_ceiling (ceil_quot a b) a b.
Proof.
  intros Hb. unfold is_ceiling, ceil_quot.
  pose proof (Z.div_mod (a + b - 1) b ltac:(lia)) as E.
  pose proof (Z.mod_pos_bound (a + b - 1) b Hb) as M.
  nia.
Qed.

Lemma is_ceiling_unique (n m a b : Z) :
  0 < b -> is_ceiling n a b -> is_ceiling m a b -> n = m.
Proof.
  unfold is_ceiling. intros Hb Hn Hm. nia.
Qed.

Lemma neg_div_is_ceiling (a b : Z) :
  0 < b -> is_ceiling (- ((- a) / b)) a b.
Proof.
  intros Hb. unfold is_ceiling.
  pose proof (Z.div_mod (- a) b ltac:(lia)) as E.
  pose proof (Z.mod_pos_bound (- a) b Hb) as M.
  nia.
Qed.

Lemma Qceiling_make (a : Z) (b : positive) :
  Qceiling (a # b) = - ((- a) / Zpos b).
Proof. reflexivity. Qed.

Lemma round_half_even_near (num den : Z) :
  0 < den ->
  2 * num - den <= 2 * den * round_half_even num den <= 2 * num + den.
Proof.
  intros Hd. unfold round_half_even.
  pose proof (Z.div_mod num den ltac:(lia)) as E.
  pose proof (Z.mod_pos_bound num den Hd) as M.
  destruct (Z.compare_spec (2 * (num mod den)) den) as [C | C | C];
    [destruct (Z.even (num / den)) |..]; nia.
Qed.

Lemma round_half_even_le (num den j : Z) :
  0 < den -> num <= j * den -> round_half_even num den <= j.
Proof.
  intros Hd Hj. unfold round_half_even.
  pose proof (Z.div_mod num den ltac:(lia)) as E.
  pose proof (Z.mod_pos_bound num den Hd) as M.
  destruct (Z.compare_spec (2 * (num mod den)) den) as [C | C | C];
    [destruct (Z.even (num / den)) |..]; nia.
Qed.

Lemma round_half_even_one (n : Z) : round_half_even n 1 = n.
Proof.
  unfold round_half_even. rewrite Z.div_1_r, Z.mod_1_r. reflexivity.
Qed.

Lemma floor_log2_lower (a b : Z) :
  0 < a -> 0 < b ->
  if 0 <=? floor_log2 a b then b * 2 ^ floor_log2 a b <= a
  else b <= a * 2 ^ (- floor_log2 a b).
Proof.
  intros Ha Hb. unfold floor_log2.
  set (d := Z.log2 a - Z.log2 b).
  destruct (Z.log2_spec a Ha) as [La Ua].
  destruct (Z.log2_spec b Hb) as [Lb Ub].
  pose proof (Z.log2_nonneg a) as Na. pose proof (Z.log2_nonneg b) as Nb.
  destruct (Z.leb_spec 0 d) as [Hd | Hd].
  - destruct (Z.leb_spec (b * 2 ^ d) a) as [T | T].
    + destruct (Z.leb_spec 0 d); [exact T | lia].
    + destruct (Z.leb_spec 0 (d - 1)) as [Hd1 | Hd1].
      * assert (E : 2 ^ Z.succ (Z.log2 b) * 2 ^ (d - 1) = 2 ^ Z.log2 a).
        { rewrite <- Z.pow_add_r by lia. f_equal. unfold d. lia. }
        assert (0 < 2 ^ (d - 1)) by (apply Z.pow_pos_nonneg; lia).
        nia.
      * assert (d = 0) by lia. replace (- (d - 1)) with 1 by lia.
        assert (Z.log2 a = Z.log2 b) by (unfold d in *; lia).
        rewrite Z.pow_succ_r in Ub by lia. rewrite Z.pow_1_r.
        replace (Z.log2 b) with (Z.log2 a) in Ub by lia. lia.
  - destruct (Z.leb_spec b (a * 2 ^ (- d))) as [T | T].
    + destruct (Z.leb_spec 0 d); [lia | exact T].
    + destruct (Z.leb_spec 0 (d - 1)); [lia |].
      assert (E : 2 ^ Z.log2 a * 2 ^ (- (d - 1)) = 2 ^ Z.succ (Z.log2 b)).
      { rewrite <- Z.pow_add_r by lia. f_equal. unfold d. lia. }
      nia.
Qed.

Lemma floor_log2_range (a b : Z) :
  0 < a < 2 ^ 53 -> 0 < b < 2 ^ 53 -> -53 <= floor_log2 a b <= 52.
Proof.
  intros Ha Hb. unfold floor_log2.
  assert (Z.log2 a < 53) by (apply Z.log2_lt_pow2; lia).
  assert (Z.log2 b < 53) by (apply Z.log2_lt_pow2; lia).
  pose proof (Z.log2_nonneg a). pose proof (Z.log2_nonneg b).
  destruct (if 0 <=? Z.log2 a - Z.log2 b then _ else _); lia.
Qed.

Lemma round64_pos_ceiling (a b : Z) :
  0 < a < 2 ^ 53 -> 0 < b < 2 ^ 53 ->
  exists r, round64_pos a b = Some r /\ is_ceiling (Qceiling r) a b.
Proof.
  intros Ha Hb.
  pose proof (floor_log2_lower a b ltac:(lia) ltac:(lia)) as Low.
  pose proof (floor_log2_range a b Ha Hb) as Rng.
  unfold round64_pos.
  set (lg := floor_log2 a b) in *.
  rewrite Z.max_l by lia.
  set (e := lg - 52).
  assert (Hover : (971 <? e) = false) by (apply Z.ltb_ge; lia).
  assert (He971 : (e =? 971) = false) by (apply Z.eqb_neq; lia).
  rewrite Hover, He971. cbn [orb andb].
  eexists. split; [reflexivity |].
  unfold scaled.
  destruct (Z.leb_spec 0 e) as [He | He].
  - (* the quotient is at least 2^52: b = 1 and it is an integer *)
    assert (lg = 52) by lia.
    destruct (Z.leb_spec 0 lg); [| lia].
    replace lg with 52 in Low by lia.
    assert (b = 1) by lia. subst b.
    replace e with 0 by lia. rewrite Z.pow_0_r, Z.mul_1_r, round_half_even_one.
    rewrite Qceiling_Z. unfold is_ceiling. lia.
  - set (P := 2 ^ (- e)).
    assert (HP : 0 < P) by (apply Z.pow_pos_nonneg; lia).
    assert (Norm : 2 ^ 52 * b <= a * P).
    { unfold P, e. destruct (Z.leb_spec 0 lg) as [Hl | Hl].
      - replace (- (lg - 52)) with (52 - lg) by lia.
        assert (E : 2 ^ lg * 2 ^ (52 - lg) = 2 ^ 52)
          by (rewrite <- Z.pow_add_r by lia; f_equal; lia).
        assert (0 < 2 ^ (52 - lg)) by (apply Z.pow_pos_nonneg; lia).
        nia.
      - replace (- (lg - 52)) with (- lg + 52) by lia.
        rewrite Z.pow_add_r by lia. nia. }
    set (m := round_half_even (a * P) b).
    pose proof (round_half_even_near (a * P) b ltac:(lia)) as Near.
    fold m in Near.
    set (k := - ((- a) / b)).
    pose proof (neg_div_is_ceiling a b ltac:(lia)) as K. fold k in K.
    assert (Hle : m <= k * P).
    { apply round_half_even_le; [lia |]. unfold is_ceiling in K. nia. }
    rewrite Qceiling_make. rewrite Z2Pos.id by exact HP.
    assert (C : is_ceiling k m P).
    { unfold is_ceiling in *. split; [| exact Hle].
      assert (b < 2 * P) by (change (2 ^ 53) with (2 * 2 ^ 52) in Ha; nia).
      nia. }
    pose proof (neg_div_is_ceiling m P HP) as C'.
    rewrite (is_ceiling_unique _ _ m P HP C' C). exact K.
Qed.

Lemma round64_pos_integer (n : Z) :
  0 < n < 2 ^ 53 ->
  exists r, round64_pos n 1 = Some r /\ (r == inject_Z n)%Q.
Proof.
  intros Hn.
  pose proof (floor_log2_lower n 1 ltac:(lia) ltac:(lia)) as Low.
  pose proof (floor_log2_range n 1 Hn ltac:(lia)) as Rng.
  unfold round64_pos.
  set (lg := floor_log2 n 1) in *.
  assert (0 <= lg).
  { unfold lg, floor_log2. change (Z.log2 1) with 0. rewrite Z.sub_0_r.
    pose proof (Z.log2_nonneg n) as N.
    destruct (Z.leb_spec 0 (Z.log2 n)); [| lia].
    destruct (Z.log2_spec n ltac:(lia)) as [L _].
    destruct (Z.leb_spec (1 * 2 ^ Z.log2 n) n); lia. }
  rewrite Z.max_l by lia.
  set (e := lg - 52).
  assert (Hover : (971 <? e) = false) by (apply Z.ltb_ge; lia).
  assert (He971 : (e =? 971) = false) by (apply Z.eqb_neq; lia).
  rewrite Hover, He971. cbn [orb andb].
  eexists. split; [reflexivity |].
  unfold scaled. destruct (Z.leb_spec 0 e) as [He | He].
  - replace e with 0 by lia.
    rewrite Z.pow_0_r, !Z.mul_1_r, round_half_even_one. reflexivity.
  - rewrite round_half_even_one. unfold Qeq. cbn [Qnum Qden inject_Z].
    rewrite Z2Pos.id by (apply Z.pow_pos_nonneg; lia). lia.
Qed.

Lemma ceil_quot_pos (a b : Z) : 0 < b -> 1 <= a -> 1 <= ceil_quot a b.
Proof.
  intros Hb Ha. pose proof (ceil_quot_is_ceiling a b Hb) as C.
  unfold is_ceiling in C. nia.
Qed.

(** *** Rounding to binary64 is exact on the integers below [2^53],
    and keeps the ceiling of their quotients *)

Lemma Qred_bounds (a : Z) (b : positive) :
  0 < a ->
  0 < Qnum (Qred (a # b)) <= a /\ Zpos (Qden (Qred (a # b))) <= Zpos b.
Proof.
  intros Ha. unfold Qred.
  pose proof (Z.ggcd_correct_divisors a (Zpos b)) as D.
  pose proof (Z.ggcd_gcd a (Zpos b)) as G.
  pose proof (Z.gcd_nonneg a (Zpos b)) as N.
  destruct (Z.ggcd a (Zpos b)) as [g [aa bb]].
  cbn [fst snd] in *. destruct D as [Da Db].
  cbn [Qnum Qden].
  rewrite <- G in N.
  assert (0 < g) by (destruct (Z.eq_dec g 0); [subst g; lia | lia]).
  assert (0 < bb) by nia. assert (0 < aa) by nia.
  rewrite Z2Pos.id by assumption. nia.
Qed.

Lemma round64_positive (q : Q) :
  0 < Qnum (Qred q) ->
  round64 q =
  match round64_pos (Qnum (Qred q)) (Zpos (Qden (Qred q))) with
  | Some r => Finite r
  | None => Infinity false
  end.
Proof.
  intros H. unfold round64. destruct (Qnum (Qred q)); [lia | reflexivity | lia].
Qed.

Lemma float_of_int_exact (n : Z) :
  0 < n < 2 ^ 53 ->
  exists r, float_of_int n = Ok (Finite r) /\ (r == inject_Z n)%Q.
Proof.
  intros Hn. unfold float_of_int.
  destruct (Qred_bounds n 1 ltac:(lia)) as [Hnum Hden].
  pose proof (Qred_correct (inject_Z n)) as E.
  unfold Qeq in E. cbn [inject_Z Qnum Qden] in E.
  change (Qred (n # 1)) with (Qred (inject_Z n)) in *.
  assert (Hd : Zpos (Qden (Qred (inject_Z n))) = 1) by lia.
  assert (Hq : Qnum (Qred (inject_Z n)) = n) by lia.
  rewrite round64_positive by lia. rewrite Hd, Hq.
  destruct (round64_pos_integer n Hn) as (r & -> & Hr).
  exists r. now split.
Qed.

Lemma ceil_div_float_exact (a b : Z) :
  0 < b < 2 ^ 53 -> 0 < a < 2 ^ 53 ->
  ceil_div_float a b = Ok (ceil_quot a b).
Proof.
  intros Hb Ha. unfold ceil_div_float.
  destruct (float_of_int_exact b Hb) as (y & -> & Hy).
  destruct (float_of_int_exact a Ha) as (x & -> & Hx).
  cbn [bind]. unfold float_div, float_is_zero.
  assert (Hz : Qeq_bool y 0 = false).
  { destruct (Qeq_bool y 0) eqn:E; [| reflexivity].
    apply Qeq_bool_eq in E. rewrite Hy in E.
    unfold Qeq in E. cbn in E. lia. }
  rewrite Hz. cbn [bind].
  assert (Hq : (x / y == a # Z.to_pos b)%Q).
  { rewrite Hx, Hy, Qmake_Qdiv. now rewrite Z2Pos.id by lia. }
  assert (Hred : Qred (x / y) = Qred (a # Z.to_pos b))
    by now apply Qred_complete.
  destruct (Qred_bounds a (Z.to_pos b) ltac:(lia)) as [Hnum Hden].
  rewrite Z2Pos.id in Hden by lia.
  pose proof (Qred_correct (a # Z.to_pos b)) as E.
  unfold Qeq in E. cbn [Qnum Qden] in E. rewrite Z2Pos.id in E by lia.
  rewrite round64_positive by (rewrite Hred; lia). rewrite Hred.
  set (n := Qnum (Qred (a # Z.to_pos b))) in *.
  set (d := Zpos (Qden (Qred (a # Z.to_pos b)))) in *.
  assert (Hd : 0 < d) by (unfold d; lia).
  destruct (round64_pos_ceiling n d ltac:(lia) ltac:(lia)) as (r & -> & C).
  cbn [int_ceil]. f_equal.
  apply (is_ceiling_unique _ _ a b ltac:(lia));
    [| now apply ceil_quot_is_ceiling].
  unfold is_ceiling in *. nia.
Qed.

(** The rounding on values whose binary64 form is known. *)
Example float_of_int_rounds :
  float_of_int (2 ^ 53 + 1) = Ok (Finite (inject_Z (2 ^ 53))) /\
  float_of_int (2 ^ 53 + 3) = Ok (Finite (inject_Z (2 ^ 53 + 4))).
Proof. split; vm_compute; reflexivity. Qed.

Example float_of_int_overflow :
  float_of_int (2 ^ 1024) = Raise OverflowError /\
  float_of_int (2 ^ 1024 - 2 ^ 970) = Raise OverflowError /\
  float_of_int (2 ^ 1024 - 2 ^ 970 - 1) =
  Ok (Finite (inject_Z ((2 ^ 53 - 1) * 2 ^ 971))).
Proof. repeat split; vm_compute; reflexivity. Qed.

Example round64_tenth :
  round64 (1 # 10) = Finite (7205759403792794 # 72057594037927936).
Proof. vm_compute. reflexivity. Qed.

Example round64_subnormal :
  round64 (1 # Z.to_pos (2 ^ 1075)) = Finite (0 # Z.to_pos (2 ^ 1074)) /\
  round64 (3 # Z.to_pos (2 ^ 1075)) = Finite (2 # Z.to_pos (2 ^ 1074)).
Proof. split; vm_compute; reflexivity. Qed.

Example ceil_div_float_examples :
  ceil_div_float 18 10 = Ok 2 /\
  ceil_div_float 1 (-10) = Ok 0 /\
  ceil_div_float 1 0 = Raise ZeroDivisionError /\
  ceil_div_float (2 ^ 53 + 1) 1 = Ok (2 ^ 53).
Proof. repeat split; vm_compute; reflexivity. Qed.

Lemma num_pages_eq {A : Type} (p : Paginator A) :
  0 < per_page p < 2 ^ 53 -> count p - orphans p < 2 ^ 53 ->
  num_pages p = Ok (num_pages_spec p).
Proof.
  intros Hp Hc. unfold num_pages, num_pages_spec.
  destruct ((count p =? 0) && negb (allow_empty_first_page p)); [reflexivity |].
  apply ceil_div_float_exact; [assumption |].
  change (2 ^ 53) with 9007199254740992 in *. lia.
Qed.

Lemma count_nonneg {A : Type} (p : Paginator A) : 0 <= count p.
Proof. unfold count. lia. Qed.

(** The page count of a paginator depends on the collection through
    its length only. *)
Lemma num_pages_of_count {A : Type} (p : Paginator A) (c : Z) :
  count p = c ->
  num_pages p =
  if (c =? 0) && negb (allow_empty_first_page p) then Ok 0
  else ceil_div_float (Z.max 1 (c - orphans p)) (per_page p).
Proof. intros <-. reflexivity. Qed.

Lemma count_repeat {A : Type} (x : A) (c pp o : Z) (allow : bool) :
  0 <= c -> count (mkPaginator (repeat x (Z.to_nat c)) pp o allow) = c.
Proof.
  intros Hc. unfold count. cbn [object_list].
  rewrite repeat_length. now apply Z2Nat.id.
Qed.

(** C1, as amended.  For a paginator with [0 < per_page < 2^53] and
    [count - orphans < 2^53], [num_pages] is 0 when the collection is
    empty and an empty first page is not allowed, and otherwise the
    ceiling of [max(1, count - orphans) / per_page]; it is 0 only in
    the first case. *)
Theorem num_pages_correct {A : Type} (p : Paginator A) :
  0 < per_page p < 2 ^ 53 ->
  count p - orphans p < 2 ^ 53 ->
  exists n,
    num_pages p = Ok n /\
    n = num_pages_spec p /\
    (count p = 0 /\ allow_empty_first_page p = false -> n = 0) /\
    (~ (count p = 0 /\ allow_empty_first_page p = false) ->
     is_ceiling n (Z.max 1 (count p - orphans p)) (per_page p)) /\
    (n = 0 -> count p = 0 /\ allow_empty_first_page p = false).
Proof.
  intros Hp Hc. exists (num_pages_spec p).
  split; [now apply num_pages_eq |]. split; [reflexivity |].
  destruct Hp as [Hp _].
  pose proof (ceil_quot_is_ceiling
                (Z.max 1 (count p - orphans p)) (per_page p) Hp) as C.
  pose proof (ceil_quot_pos (Z.max 1 (count p - orphans p)) (per_page p) Hp
                ltac:(lia)) as P.
  unfold num_pages_spec.
  destruct (Z.eqb_spec (count p) 0) as [E | E];
    destruct (allow_empty_first_page p); cbn [andb negb];
    (split; [| split]); intros H;
    try reflexivity; try exact C; try tauto;
    try (destruct H; congruence); try lia.
Qed.

Lemma num_pages_correct_witness :
  0 < per_page (mkPaginator (numbers 23) 10 5 true) < 2 ^ 53 /\
  exists n,
    num_pages (mkPaginator (numbers 23) 10 5 true) = Ok n /\ n = 2.
Proof.
  split; [cbn; lia |].
  destruct (num_pages_correct (mkPaginator (numbers 23) 10 5 true)
              ltac:(cbn; lia) ltac:(cbn; lia)) as (n & E & S & _).
  exists n. split; [exact E |]. rewrite S. reflexivity.
Defined.

(** C1 as stated fails on large numbers.  With [per_page = 2^1024]
    the conversion [float(per_page)] raises [OverflowError] and there
    is no page count; with [2^53 + 1] items, one per page, the quotient
    is rounded and the page count is [2^53], one short of the
    ceiling. *)
Lemma num_pages_large_numbers :
  (0 < per_page (mkPaginator (@nil Z) (2 ^ 1024) 0 true) /\
   num_pages (mkPaginator (@nil Z) (2 ^ 1024) 0 true) = Raise OverflowError /\
   ~ exists n, num_pages (mkPaginator (@nil Z) (2 ^ 1024) 0 true) = Ok n) /\
  (0 < per_page (mkPaginator (repeat 0 (Z.to_nat (2 ^ 53 + 1))) 1 0 true) /\
   count (mkPaginator (repeat 0 (Z.to_nat (2 ^ 53 + 1))) 1 0 true)
   = 2 ^ 53 + 1 /\
   num_pages (mkPaginator (repeat 0 (Z.to_nat (2 ^ 53 + 1))) 1 0 true)
   = Ok (2 ^ 53) /\
   ~ is_ceiling (2 ^ 53) (Z.max 1 (2 ^ 53 + 1 - 0)) 1).
Proof.
  assert (O : num_pages (mkPaginator (@nil Z) (2 ^ 1024) 0 true)
              = Raise OverflowError) by (vm_compute; reflexivity).
  split.
  - split; [reflexivity |]. split; [exact O |].
    intros [n Hn]. rewrite O in Hn. discriminate.
  - pose proof (count_repeat 0 (2 ^ 53 + 1) 1 0 true ltac:(lia)) as C.
    split; [reflexivity |]. split; [exact C |]. split.
    + rewrite (num_pages_of_count _ _ C).
      cbn [allow_empty_first_page orphans per_page]. vm_compute. reflexivity.
    + unfold is_ceiling. vm_compute. intros [_ H]. now apply H.
Qed.

(** ** Validation of a page number *)

Lemma py_int_raises (o : pyobj) (e : exn) :
  py_int o = Raise e ->
  e = TypeError \/ e = ValueError \/ e = OverflowError.
Proof.
  destruct o as [z | b | s | [q | neg |] |]; cbn; try discriminate.
  - destruct (int_of_str s); [discriminate |]. intros [= <-]. tauto.
  - intros [= <-]. tauto.
  - intros [= <-]. tauto.
  - intros [= <-]. tauto.
Qed.

Lemma num_pages_total {A : Type} (p : Paginator A) :
  0 < per_page p < 2 ^ 53 -> count p - orphans p < 2 ^ 53 ->
  exists n, num_pages p = Ok n.
Proof.
  intros Hp Hc. exists (num_pages_spec p). now apply num_pages_eq.
Qed.

Lemma validate_number_eq {A : Type} (p : Paginator A) (x : pyobj) (n : Z) :
  num_pages p = Ok n ->
  validate_number p x =
  validate_number_spec (py_int x) n (allow_empty_first_page p).
Proof.
  intros Hn. unfold validate_number, validate_number_spec.
  destruct (py_int x) as [z | e] eqn:Ex.
  - destruct (z <? 1); [reflexivity |].
    rewrite Hn. cbn [bind]. rewrite Z.gtb_ltb.
    destruct (n <? z); [| reflexivity].
    now destruct ((z =? 1) && allow_empty_first_page p).
  - destruct e; reflexivity.
Qed.

Lemma validate_number_Ok {A : Type} (p : Paginator A) (x : pyobj) (n : Z) :
  validate_number p x = Ok n ->
  py_int x = Ok n /\ 1 <= n /\
  exists m, num_pages p = Ok m /\
            (n <= m \/ (n = 1 /\ allow_empty_first_page p = true)).
Proof.
  unfold validate_number.
  destruct (py_int x) as [z | e].
  - destruct (Z.ltb_spec z 1); [discriminate |].
    destruct (num_pages p) as [m | e]; cbn [bind]; [| discriminate].
    destruct (Z.gtb_spec z m).
    + destruct (Z.eqb_spec z 1); cbn [andb]; [| discriminate].
      destruct (allow_empty_first_page p); [| discriminate].
      intros [= <-]. repeat split; try lia. exists m. split; [reflexivity |].
      right. now split.
    + intros [= <-]. repeat split; try lia. exists m. split; [reflexivity |].
      now left.
  - destruct e; discriminate.
Qed.

Lemma validate_number_in_range {A : Type} (p : Paginator A) (n m : Z) :
  num_pages p = Ok m -> 1 <= n <= m -> validate_number p (PyInt n) = Ok n.
Proof.
  intros Hm Hn. rewrite (validate_number_eq p _ m Hm). cbn.
  destruct (Z.ltb_spec n 1); [lia |].
  destruct (Z.ltb_spec m n); [lia | reflexivity].
Qed.

(** C3, as amended.  [validate_number] raises [PageNotAnInteger] when
    the coercion [int(number)] raises [TypeError] or [ValueError], and
    lets its [OverflowError] through; it raises [EmptyPage] when the
    integer is below 1; then, with the page count [n] that [num_pages]
    returns, it raises [EmptyPage] when the integer is above [n] unless
    it is 1 and an empty first page is allowed, and returns the integer
    otherwise, so that page 1 is accepted whenever an empty first page
    is allowed.  The page count is there for [0 < per_page < 2^53] and
    [count - orphans < 2^53]. *)
Theorem validate_number_correct {A : Type} (p : Paginator A) (x : pyobj) :
  (py_int x = Raise TypeError \/ py_int x = Raise ValueError ->
   validate_number p x = Raise PageNotAnInteger) /\
  (py_int x = Raise OverflowError ->
   validate_number p x = Raise OverflowError) /\
  (forall z, py_int x = Ok z -> z < 1 ->
             validate_number p x = Raise EmptyPage) /\
  (forall n, num_pages p = Ok n ->
     validate_number p x =
       validate_number_spec (py_int x) n (allow_empty_first_page p) /\
     (forall z, py_int x = Ok z -> 1 <= z -> n < z ->
                ~ (z = 1 /\ allow_empty_first_page p = true) ->
                validate_number p x = Raise EmptyPage) /\
     (forall z, py_int x = Ok z -> 1 <= z ->
                z <= n \/ (z = 1 /\ allow_empty_first_page p = true) ->
                validate_number p x = Ok z) /\
     (py_int x = Ok 1 -> allow_empty_first_page p = true ->
      validate_number p x = Ok 1)) /\
  (0 < per_page p < 2 ^ 53 -> count p - orphans p < 2 ^ 53 ->
   exists n, num_pages p = Ok n).
Proof.
  split; [| split; [| split; [| split]]].
  - unfold validate_number. intros [-> | ->]; reflexivity.
  - unfold validate_number. intros ->. reflexivity.
  - unfold validate_number. intros z -> Hz.
    now destruct (Z.ltb_spec z 1); [| lia].
  - intros n Hn. rewrite (validate_number_eq p x n Hn).
    split; [reflexivity |]. unfold validate_number_spec.
    split; [| split].
    + intros z -> Hz Hnz Hnot.
      destruct (Z.ltb_spec z 1); [reflexivity |].
      destruct (Z.ltb_spec n z); [| lia].
      destruct (Z.eqb_spec z 1); cbn; [| reflexivity].
      destruct (allow_empty_first_page p); [| reflexivity].
      exfalso. apply Hnot. now split.
    + intros z -> Hz Hor.
      destruct (Z.ltb_spec z 1); [lia |].
      destruct (Z.ltb_spec n z); [| reflexivity].
      destruct Hor as [Hle | [-> ->]]; [lia | reflexivity].
    + intros -> ->. cbn. now destruct (n <? 1).
  - apply num_pages_total.
Qed.

Lemma validate_number_correct_witness :
  validate_number (mkPaginator (@nil Z) 10 0 true) (PyStr " 1 ") = Ok 1 /\
  validate_number (mkPaginator (@nil Z) 10 0 true) (PyStr "one") =
  Raise PageNotAnInteger.
Proof.
  destruct (validate_number_correct (mkPaginator (@nil Z) 10 0 true)
              (PyStr " 1 ")) as (_ & _ & _ & Hn & Hex).
  destruct (Hex ltac:(cbn; lia) ltac:(cbn; lia)) as [n En].
  destruct (Hn n En) as (_ & _ & _ & H1).
  split; [apply H1; reflexivity |].
  destruct (validate_number_correct (mkPaginator (@nil Z) 10 0 true)
              (PyStr "one")) as (Herr & _).
  apply Herr. right. reflexivity.
Defined.

(** C3 as stated fails on two inputs.  An infinite float is not
    coercible to an integer, yet [validate_number] raises the
    [OverflowError] of [int()], not [PageNotAnInteger]; and with
    [per_page = 2^1024] page 1 raises [OverflowError] although an
    empty first page is allowed. *)
Lemma validate_number_overflow :
  (py_int (PyFloat (Infinity false)) = Raise OverflowError /\
   validate_number (mkPaginator (numbers 23) 10 5 true)
     (PyFloat (Infinity false)) = Raise OverflowError /\
   validate_number (mkPaginator (numbers 23) 10 5 true)
     (PyFloat (Infinity false)) <> Raise PageNotAnInteger) /\
  (py_int (PyInt 1) = Ok 1 /\
   allow_empty_first_page (mkPaginator (@nil Z) (2 ^ 1024) 0 true) = true /\
   validate_number (mkPaginator (@nil Z) (2 ^ 1024) 0 true) (PyInt 1)
   = Raise OverflowError).
Proof.
  split.
  - split; [reflexivity |]. split; [reflexivity | discriminate].
  - split; [reflexivity |]. split; [reflexivity |].
    vm_compute. reflexivity.
Qed.

Example validate_number_word :
  validate_number (mkPaginator (numbers 23) 10 5 true) (PyStr "two") =
  Raise PageNotAnInteger.
Proof. reflexivity. Qed.

Example validate_number_none :
  validate_number (mkPaginator (numbers 23) 10 5 true) PyNone =
  Raise PageNotAnInteger.
Proof. reflexivity. Qed.

Example validate_number_zero :
  validate_number (mkPaginator (numbers 23) 10 5 true) (PyStr "0") =
  Raise EmptyPage.
Proof. reflexivity. Qed.

Example validate_number_past_the_end :
  validate_number (mkPaginator (numbers 23) 10 5 true) (PyInt 3) =
  Raise EmptyPage.
Proof. vm_compute. reflexivity. Qed.

Example validate_number_float :
  validate_number (mkPaginator (numbers 23) 10 5 true)
    (PyFloat (Finite (5 # 2))) = Ok 2.
Proof. vm_compute. reflexivity. Qed.

(** With [per_page = 0] the page count cannot be read. *)
Example validate_number_no_page_size :
  validate_number (mkPaginator (numbers 23) 0 5 true) (PyInt 1) =
  Raise ZeroDivisionError.
Proof. vm_compute. reflexivity. Qed.

(** ** Slicing out a page *)

Lemma filter_index_range {A : Type} (l : list A) (s lo hi : nat) :
  map snd
    (filter (fun ix => (lo <=? fst ix)%nat && (fst ix <? hi)%nat)
       (combine (seq s (List.length l)) l)) =
  firstn (hi - Nat.max lo s) (skipn (lo - s) l).
Proof.
  revert s. induction l as [| x l IH]; intros s.
  - cbn. now rewrite skipn_nil, firstn_nil.
  - cbn [List.length seq combine filter fst].
    destruct (Nat.leb_spec lo s) as [Hlo | Hlo];
      destruct (Nat.ltb_spec s hi) as [Hhi | Hhi]; cbn [andb map snd];
      rewrite IH.
    + replace (lo - s)%nat with 0%nat by lia.
      replace (lo - S s)%nat with 0%nat by lia. cbn [skipn].
      replace (hi - Nat.max lo s)%nat with (S (hi - Nat.max lo (S s)))%nat
        by lia.
      reflexivity.
    + replace (hi - Nat.max lo (S s))%nat with 0%nat by lia.
      replace (hi - Nat.max lo s)%nat with 0%nat by lia.
      reflexivity.
    + replace (lo - s)%nat with (S (lo - S s))%nat by lia. cbn [skipn].
      now replace (Nat.max lo (S s)) with (Nat.max lo s) by lia.
    + replace (lo - s)%nat with (S (lo - S s))%nat by lia. cbn [skipn].
      now replace (Nat.max lo (S s)) with (Nat.max lo s) by lia.
Qed.

Lemma slice_spec_nat {A : Type} (l : list A) (lo hi : Z) :
  0 <= lo -> 0 <= hi ->
  slice_spec l lo hi =
  firstn (Z.to_nat hi - Z.to_nat lo) (skipn (Z.to_nat lo) l).
Proof.
  intros Hlo Hhi. unfold slice_spec.
  rewrite <- (Nat.sub_0_r (Z.to_nat lo)) at 2.
  replace (Z.to_nat hi - Z.to_nat lo)%nat
    with (Z.to_nat hi - Nat.max (Z.to_nat lo) 0)%nat by lia.
  rewrite <- filter_index_range. f_equal.
  apply filter_ext. intros [i x]. cbn [fst].
  f_equal.
  - destruct (Z.leb_spec lo (Z.of_nat i)), (Nat.leb_spec (Z.to_nat lo) i);
      try reflexivity; lia.
  - destruct (Z.ltb_spec (Z.of_nat i) hi), (Nat.ltb_spec i (Z.to_nat hi));
      try reflexivity; lia.
Qed.

Lemma py_slice_spec {A : Type} (l : list A) (lo hi : Z) :
  0 <= lo -> 0 <= hi -> py_slice l lo hi = slice_spec l lo hi.
Proof.
  intros Hlo Hhi. rewrite slice_spec_nat by assumption.
  unfold py_slice, slice_index.
  destruct (Z.ltb_spec lo 0); [lia |]. destruct (Z.ltb_spec hi 0); [lia |].
  set (len := List.length l).
  destruct (Z.le_gt_cases lo (Z.of_nat len)) as [Hl | Hl].
  - rewrite (Z.min_l lo) by lia.
    destruct (Z.le_gt_cases hi (Z.of_nat len)) as [Hh | Hh].
    + rewrite (Z.min_l hi) by lia. f_equal. lia.
    + rewrite (Z.min_r hi) by lia.
      rewrite !firstn_all2; try reflexivity;
        rewrite length_skipn; fold len; lia.
  - rewrite (Z.min_r lo) by lia.
    rewrite !(skipn_all2 l) by (fold len; lia).
    now rewrite !firstn_nil.
Qed.

Lemma page_eq {A : Type} (p : Paginator A) (x : pyobj) (n : Z) :
  validate_number p x = Ok n ->
  page p x =
  Ok (mkPage (py_slice (object_list p) (bottom_of p n) (top_of p n)) n p).
Proof.
  intros Hv. unfold page. rewrite Hv. cbn [bind].
  unfold top_of, bottom_of. now rewrite Z.geb_leb.
Qed.

Lemma bounds_nonneg {A : Type} (p : Paginator A) (n : Z) :
  0 < per_page p -> 1 <= n -> 0 <= bottom_of p n /\ 0 <= top_of p n.
Proof.
  intros Hp Hn. pose proof (count_nonneg p).
  unfold top_of, bottom_of.
  destruct (count p <=? (n - 1) * per_page p + per_page p + orphans p); nia.
Qed.

(** C2. For a valid page number [n], [page] returns the page numbered
    [n] whose items are the items of the collection at the indices
    [bottom <= i < top], with [bottom = (n-1)*per_page] and
    [top = bottom + per_page] clamped to [count] when
    [top + orphans >= count].  With 23 items, 10 per page and 5
    orphans there are 2 pages and page 2 holds the indices 10 to 23. *)
Theorem page_slice :
  (forall (A : Type) (p : Paginator A) (x : pyobj) (n : Z),
     0 < per_page p ->
     validate_number p x = Ok n ->
     exists pg,
       page p x = Ok pg /\
       page_object_list pg =
         slice_spec (object_list p) (bottom_of p n) (top_of p n) /\
       number pg = n /\ paginator pg = p) /\
  (forall (A : Type) (l : list A) (allow : bool),
     List.length l = 23%nat ->
     let p := mkPaginator l 10 5 allow in
     num_pages p = Ok 2 /\
     bottom_of p 2 = 10 /\ top_of p 2 = 23 /\
     page p (PyInt 2) = Ok (mkPage (slice_spec l 10 23) 2 p) /\
     slice_spec l 10 23 = skipn 10 l /\
     List.length (slice_spec l 10 23) = 13%nat).
Proof.
  split.
  - intros A p x n Hp Hv.
    destruct (validate_number_Ok p x n Hv) as (_ & Hn & _).
    destruct (bounds_nonneg p n Hp Hn) as [Hb Ht].
    eexists. split; [exact (page_eq p x n Hv) |]. cbn.
    split; [now apply py_slice_spec | now split].
  - intros A l allow Hl p.
    assert (Hc : count p = 23) by (unfold count; cbn; lia).
    assert (Hn : num_pages p = Ok 2).
    { rewrite num_pages_eq by (cbn; lia).
      unfold num_pages_spec. rewrite Hc. cbn [per_page orphans p].
      now destruct allow. }
    assert (Hb : bottom_of p 2 = 10) by reflexivity.
    assert (Ht : top_of p 2 = 23) by (unfold top_of; now rewrite Hc).
    assert (Hs : slice_spec l 10 23 = skipn 10 l).
    { rewrite slice_spec_nat by lia.
      apply firstn_all2. rewrite length_skipn. lia. }
    repeat split; try assumption.
    + rewrite (page_eq p (PyInt 2) 2).
      * rewrite Hb, Ht. now rewrite py_slice_spec by lia.
      * apply (validate_number_in_range p 2 2 Hn). lia.
    + rewrite Hs, length_skipn. lia.
Qed.

Lemma page_slice_witness :
  page (mkPaginator (numbers 23) 10 5 true) (PyStr "2") =
  Ok (mkPage [10; 11; 12; 13; 14; 15; 16; 17; 18; 19; 20; 21; 22] 2
        (mkPaginator (numbers 23) 10 5 true)) /\
  page (mkPaginator (numbers 23) 10 5 true) (PyInt 1) =
  Ok (mkPage [0; 1; 2; 3; 4; 5; 6; 7; 8; 9] 1
        (mkPaginator (numbers 23) 10 5 true)).
Proof.
  destruct page_slice as [General Example].
  split.
  - destruct (Example Z (numbers 23) true eq_refl) as (_ & _ & _ & H & _).
    exact H.
  - destruct (General Z (mkPaginator (numbers 23) 10 5 true) (PyInt 1) 1
                ltac:(cbn; lia)
                (validate_number_in_range _ 1 2
                   (num_pages_eq (mkPaginator (numbers 23) 10 5 true)
                      ltac:(cbn; lia) ltac:(cbn; lia))
                   ltac:(lia)))
      as (pg & Hpg & Hitems & Hnum & Hpag).
    rewrite Hpg. destruct pg as [items k q]. cbn in Hitems, Hnum, Hpag.
    now subst.
Defined.

(** ** An empty first page *)




(** ** Index bounds of a page *)

(** C6, as amended.  On a paginator with [0 < per_page < 2^53],
    [count - orphans < 2^53] and no negative [orphans], for a page
    number [n] in [1 .. num_pages]: [start_index] is
    [per_page*(n-1)+1] (0 on an empty collection), [end_index] is
    [count] on the last page and [n*per_page] otherwise; when the
    collection has items both lie in [1 .. count] with
    [start_index <= end_index], and the page after [n], when there is
    one, starts right after the end of page [n]. *)
Theorem index_bounds {A : Type} (p : Paginator A) (n m : Z) :
  0 < per_page p < 2 ^ 53 ->
  count p - orphans p < 2 ^ 53 ->
  0 <= orphans p ->
  num_pages p = Ok m ->
  1 <= n <= m ->
  exists pg e,
    page p (PyInt n) = Ok pg /\
    end_index pg = Ok e /\
    (count p = 0 -> start_index pg = 0) /\
    e = (if n =? m then count p else n * per_page p) /\
    (1 <= count p ->
     start_index pg = per_page p * (n - 1) + 1 /\
     1 <= start_index pg <= count p /\
     1 <= e <= count p /\
     start_index pg <= e /\
     (n < m ->
      exists pg', page p (PyInt (n + 1)) = Ok pg' /\
                  e + 1 = start_index pg')).
Proof.
  intros Hp Hb Ho Hm Hn.
  pose proof (validate_number_in_range p n m Hm Hn) as Hv.
  eexists. exists (if n =? m then count p else n * per_page p).
  split; [exact (page_eq p _ n Hv) |].
  unfold end_index, start_index. cbn [paginator number].
  rewrite Hm. cbn [bind].
  split; [now destruct (n =? m) |].
  split; [now intros -> |].
  split; [reflexivity |].
  intros Hc.
  destruct (Z.eqb_spec (count p) 0) as [E | _]; [lia |].
  assert (Hceil : is_ceiling m (Z.max 1 (count p - orphans p)) (per_page p)).
  { rewrite (num_pages_eq p Hp Hb) in Hm. injection Hm as <-.
    unfold num_pages_spec.
    destruct (Z.eqb_spec (count p) 0); [lia |]. cbn [andb].
    apply ceil_quot_is_ceiling. lia. }
  unfold is_ceiling in Hceil. destruct Hp as [Hp _].
  split; [reflexivity |].
  destruct (Z.eqb_spec n m) as [-> | Hne].
  - repeat split; try nia.
  - repeat split; try nia.
    intros Hlt.
    pose proof (validate_number_in_range p (n + 1) m Hm ltac:(lia)) as Hv'.
    eexists. split; [exact (page_eq p _ (n + 1) Hv') |].
    cbn [paginator number].
    destruct (Z.eqb_spec (count p) 0); lia.
Qed.

Lemma index_bounds_witness :
  exists pg e,
    page (mkPaginator (numbers 23) 10 5 true) (PyInt 1) = Ok pg /\
    end_index pg = Ok e /\ start_index pg = 1 /\ e = 10.
Proof.
  destruct (index_bounds (mkPaginator (numbers 23) 10 5 true) 1 2
              ltac:(cbn; lia) ltac:(cbn; lia) ltac:(cbn; lia)
              ltac:(vm_compute; reflexivity) ltac:(lia))
    as (pg & e & Hpg & He & _ & Hval & Hpos).
  exists pg, e. split; [exact Hpg |]. split; [exact He |].
  split; [| exact Hval].
  now destruct (Hpos ltac:(cbn; lia)) as [-> _].
Defined.

(** C6 as stated fails on a very long collection.  With [2^53 + 3]
    items, one per page and no orphans, the quotient is rounded up and
    the page count is [2^53 + 4]; that page number is valid, and its
    [start_index], [2^53 + 4], is above [count], which is its
    [end_index]. *)
Lemma index_bounds_rounding :
  exists pg,
    count (mkPaginator (repeat 0 (Z.to_nat (2 ^ 53 + 3))) 1 0 true)
    = 2 ^ 53 + 3 /\
    num_pages (mkPaginator (repeat 0 (Z.to_nat (2 ^ 53 + 3))) 1 0 true)
    = Ok (2 ^ 53 + 4) /\
    page (mkPaginator (repeat 0 (Z.to_nat (2 ^ 53 + 3))) 1 0 true)
      (PyInt (2 ^ 53 + 4)) = Ok pg /\
    start_index pg = 2 ^ 53 + 4 /\
    end_index pg = Ok (2 ^ 53 + 3) /\
    ~ start_index pg <= 2 ^ 53 + 3.
Proof.
  set (p := mkPaginator (repeat 0 (Z.to_nat (2 ^ 53 + 3))) 1 0 true).
  assert (C : count p = 2 ^ 53 + 3) by (apply count_repeat; lia).
  assert (N : num_pages p = Ok (2 ^ 53 + 4)).
  { rewrite (num_pages_of_count _ _ C).
    unfold p. cbn [allow_empty_first_page orphans per_page].
    vm_compute. reflexivity. }
  pose proof (validate_number_in_range p (2 ^ 53 + 4) _ N ltac:(lia)) as V.
  eexists. split; [exact C |]. split; [exact N |].
  split; [exact (page_eq p _ _ V) |].
  unfold start_index, end_index. cbn [paginator number].
  rewrite N, !C. cbn [bind].
  unfold p. cbn [per_page]. clear.
  split; [vm_compute; reflexivity |].
  split; [vm_compute; reflexivity |].
  vm_compute. intros H. now apply H.
Qed.

(** ** The padded page range *)

Lemma append_range_app (acc : list (option Z)) (lo hi : Z) :
  append_range acc lo hi = acc ++ map Some (py_range lo hi).
Proof.
  unfold append_range. generalize (py_range lo hi) as l. intros l.
  revert acc. induction l as [| i l IH]; intros acc; cbn.
  - now rewrite app_nil_r.
  - rewrite IH, <- app_assoc. reflexivity.
Qed.

Lemma upfrom_seq (a : Z) (k : nat) :
  map (fun i => a + Z.of_nat i) (seq 0 k) = upfrom a k.
Proof.
  revert a. induction k as [| k IH]; intros a; [reflexivity |].
  cbn [seq map upfrom]. rewrite <- seq_shift, map_map.
  f_equal; [cbn; lia |].
  rewrite <- IH. apply map_ext. intros i. lia.
Qed.

Lemma py_range_region (a b : Z) :
  map Some (py_range a (b + 1)) = region a b.
Proof.
  unfold py_range, region. rewrite upfrom_seq.
  now replace (b + 1 - a) with (b - a + 1) by lia.
Qed.

Lemma padded_range_eq (n k padding cap : Z) :
  0 <= cap -> padded_range n k padding cap = padded_range_spec n k padding cap.
Proof.
  intros Hcap. unfold padded_range, padded_range_spec, gap.
  rewrite !Z.gtb_ltb.
  destruct (Z.eqb_spec cap 0) as [-> | Hne]; cbn [negb andb].
  - rewrite append_range_app, py_range_region. cbn. now rewrite app_nil_r.
  - destruct (Z.ltb_spec 0 cap) as [_ | ?]; [| lia]. cbn [andb].
    rewrite !append_range_app, !py_range_region. cbn [app].
    set (head_end := Z.min cap n).
    set (body_start := Z.max (head_end + 1) (k - padding)).
    set (body_end := Z.min (k + padding) n).
    set (tail_start := Z.max body_end (n - cap) + 1).
    destruct (head_end + 1 <? body_start), (body_end <? n),
      (body_end + 1 <? tail_start);
      rewrite ?append_range_app, ?py_range_region, ?app_nil_r, <- ?app_assoc;
      reflexivity.
Qed.

(** C4. For a cap that is not negative, [padded_page_range] is the
    head region [1 .. min(cap, num_pages)], the body region
    [max(head_end+1, number-padding) .. min(number+padding, num_pages)]
    and, when [cap > 0] and the body ends before the last page, the
    tail region [max(body_end, num_pages-cap)+1 .. num_pages], with a
    gap marker between regions that are not adjacent; and the three
    examples of the specification. *)
Theorem padded_page_range_correct :
  (forall (A : Type) (pg : Page A) (n padding cap : Z),
     num_pages (paginator pg) = Ok n ->
     0 <= cap ->
     padded_page_range pg padding cap =
     Ok (padded_range_spec n (number pg) padding cap)) /\
  (forall (A : Type) (pg : Page A),
     num_pages (paginator pg) = Ok 6 -> number pg = 3 ->
     padded_page_range pg 1 1 =
     Ok [Some 1; Some 2; Some 3; Some 4; None; Some 6]) /\
  (forall (A : Type) (pg : Page A),
     num_pages (paginator pg) = Ok 7 -> number pg = 7 ->
     padded_page_range pg 2 0 = Ok [Some 5; Some 6; Some 7]) /\
  (forall (A : Type) (pg : Page A),
     num_pages (paginator pg) = Ok 9 -> number pg = 5 ->
     padded_page_range pg 1 2 =
     Ok [Some 1; Some 2; None; Some 4; Some 5; Some 6; None; Some 8; Some 9]).
Proof.
  split; [| split; [| split]].
  - intros A pg n padding cap Hn Hcap.
    unfold padded_page_range. rewrite Hn. cbn [bind].
    now rewrite padded_range_eq.
  - intros A pg Hn Hk. unfold padded_page_range. now rewrite Hn, Hk.
  - intros A pg Hn Hk. unfold padded_page_range. now rewrite Hn, Hk.
  - intros A pg Hn Hk. unfold padded_page_range. now rewrite Hn, Hk.
Qed.

Lemma padded_page_range_correct_witness :
  padded_page_range (mkPage [2] 3 (mkPaginator (numbers 6) 1 0 true)) 1 1 =
  Ok [Some 1; Some 2; Some 3; Some 4; None; Some 6] /\
  padded_page_range (mkPage [6] 7 (mkPaginator (numbers 7) 1 0 true)) 2 0 =
  Ok [Some 5; Some 6; Some 7] /\
  padded_page_range (mkPage [4] 5 (mkPaginator (numbers 9) 1 0 true)) 1 2 =
  Ok [Some 1; Some 2; None; Some 4; Some 5; Some 6; None; Some 8; Some 9] /\
  padded_page_range (mkPage [0] 1 (mkPaginator (numbers 10) 1 0 true)) 3 1 =
  Ok [Some 1; Some 2; Some 3; Some 4; None; Some 10].
Proof.
  destruct padded_page_range_correct as (General & Ex1 & Ex2 & Ex3).
  split; [| split; [| split]].
  - apply Ex1; vm_compute; reflexivity.
  - apply Ex2; vm_compute; reflexivity.
  - apply Ex3; vm_compute; reflexivity.
  - rewrite (General Z _ 10 3 1);
      [reflexivity | vm_compute; reflexivity | lia].
Defined.

(** C5, on the page range of page 1 of 3 with [padding=0], [cap=2],
    and of page 1 of 10 with [padding=0], [cap=5].  The body region is
    empty in both; in the first the tail starts on a page of the head,
    and page 2 comes twice; in the second a gap marker stands between
    the adjacent pages 5 and 6. *)
Theorem padded_page_range_overlap :
  let p3 := mkPaginator (numbers 3) 1 0 true in
  let p10 := mkPaginator (numbers 10) 1 0 true in
  (exists pg,
     page p3 (PyInt 1) = Ok pg /\
     num_pages p3 = Ok 3 /\ number pg = 1 /\
     padded_page_range pg 0 2 = Ok [Some 1; Some 2; Some 2; Some 3] /\
     no_duplicate (pages_of [Some 1; Some 2; Some 2; Some 3]) = false /\
     increasing (pages_of [Some 1; Some 2; Some 2; Some 3]) = false) /\
  (exists pg r,
     page p10 (PyInt 1) = Ok pg /\
     num_pages p10 = Ok 10 /\ number pg = 1 /\
     padded_page_range pg 0 5 = Ok r /\
     r = [Some 1; Some 2; Some 3; Some 4; Some 5; None;
          Some 6; Some 7; Some 8; Some 9; Some 10] /\
     gaps_between None r = false).
Proof.
  split.
  - exists (mkPage [0] 1 (mkPaginator (numbers 3) 1 0 true)).
    repeat split; vm_compute; reflexivity.
  - exists (mkPage [0] 1 (mkPaginator (numbers 10) 1 0 true)).
    exists [Some 1; Some 2; Some 3; Some 4; Some 5; None;
            Some 6; Some 7; Some 8; Some 9; Some 10].
    repeat split; vm_compute; reflexivity.
Qed.

(** Where the padded range does keep its invariant: with no caps, or
    when the body region is not empty ([cap < number + padding]), or
    when the body reaches the last page. *)

Lemma increasing_lower (a : Z) (l : list Z) :
  increasing (a :: l) = true -> Forall (fun n => a < n) l.
Proof.
  revert a. induction l as [| b l IH]; intros a H; [constructor |].
  cbn [increasing] in H. apply andb_true_iff in H as [Hab Hl].
  apply Z.ltb_lt in Hab. constructor; [exact Hab |].
  apply (Forall_impl _ (P := fun n => b < n)); [intros; lia | now apply IH].
Qed.

Lemma increasing_no_duplicate (l : list Z) :
  increasing l = true -> no_duplicate l = true.
Proof.
  induction l as [| a l IH]; intros H; [reflexivity |].
  cbn [no_duplicate]. apply andb_true_iff. split.
  - apply negb_true_iff.
    destruct (existsb (Z.eqb a) l) eqn:E; [| reflexivity].
    apply existsb_exists in E as (n & Hin & Heq). apply Z.eqb_eq in Heq.
    pose proof (increasing_lower a l H) as F.
    rewrite Forall_forall in F. specialize (F n Hin). lia.
  - apply IH. destruct l as [| b l']; [reflexivity |].
    cbn [increasing] in H. now apply andb_true_iff in H as [_ H].
Qed.

Lemma chain_sound (r : list (option Z)) : forall a,
  chain a r = true ->
  increasing (a :: pages_of r) = true /\ gaps_between (Some a) r = true.
Proof.
  induction r as [| [n |] r IH]; intros a H.
  - now split.
  - cbn [chain] in H. apply andb_true_iff in H as [Han Hr].
    destruct (IH n Hr) as [I G]. split; [| exact G].
    change (pages_of (Some n :: r)) with (n :: pages_of r).
    cbn [increasing]. now rewrite Han.
  - destruct r as [| [b |] r']; try discriminate.
    cbn [chain] in H. apply andb_true_iff in H as [Hab Hr].
    apply Z.ltb_lt in Hab.
    destruct (IH (b - 1)) as [I G].
    { cbn [chain]. rewrite Hr. now destruct (Z.ltb_spec (b - 1) b); [| lia]. }
    change (pages_of (Some b :: r')) with (b :: pages_of r') in I.
    change (pages_of (None :: Some b :: r')) with (b :: pages_of r').
    cbn [increasing] in I |- *. apply andb_true_iff in I as [_ I].
    cbn [gaps_between] in G |- *. rewrite I, G.
    split.
    + now destruct (Z.ltb_spec a b); [| lia].
    + now destruct (Z.ltb_spec (a + 1) b); [| lia].
Qed.

Lemma chain_upfrom (k : nat) : forall a rest,
  chain (a + Z.of_nat k - 1) rest = true ->
  chain (a - 1) (map Some (upfrom a k) ++ rest) = true.
Proof.
  induction k as [| k IH]; intros a rest H.
  - cbn. now replace (a + Z.of_nat 0 - 1) with (a - 1) in H by lia.
  - cbn [upfrom map app chain].
    destruct (Z.ltb_spec (a - 1) a); [| lia]. cbn [andb].
    replace a with (a + 1 - 1) at 1 by lia. apply IH.
    now replace (a + 1 + Z.of_nat k - 1) with (a + Z.of_nat (S k) - 1) by lia.
Qed.

Lemma region_cons (a b : Z) :
  a <= b ->
  region a b = Some a :: map Some (upfrom (a + 1) (Z.to_nat (b - a))).
Proof.
  intros H. unfold region.
  replace (Z.to_nat (b - a + 1)) with (S (Z.to_nat (b - a))) by lia.
  reflexivity.
Qed.

Lemma chain_region (a b : Z) (rest : list (option Z)) :
  a <= b -> chain b rest = true ->
  chain a (map Some (upfrom (a + 1) (Z.to_nat (b - a))) ++ rest) = true.
Proof.
  intros H Hr. replace a with (a + 1 - 1) at 1 by lia.
  apply chain_upfrom.
  now replace (a + 1 + Z.of_nat (Z.to_nat (b - a)) - 1) with b by lia.
Qed.

Lemma chain_gap_region (last a b : Z) (rest : list (option Z)) :
  last < a -> a <= b -> chain b rest = true ->
  chain last (gap last a ++ region a b ++ rest) = true.
Proof.
  intros Hl Hab Hr. rewrite (region_cons a b Hab). unfold gap.
  pose proof (chain_region a b rest Hab Hr) as C.
  destruct (Z.ltb_spec (last + 1) a) as [Hg | Hg]; cbn [app chain]; rewrite C.
  - now destruct (Z.ltb_spec (last + 1) a); [| lia].
  - now destruct (Z.ltb_spec last a); [| lia].
Qed.

Lemma invariant_region (a b : Z) (rest : list (option Z)) :
  a <= b -> chain b rest = true ->
  padded_range_invariant (region a b ++ rest) = true.
Proof.
  intros Hab Hr. rewrite (region_cons a b Hab).
  destruct (chain_sound _ a (chain_region a b rest Hab Hr)) as [I G].
  unfold padded_range_invariant. cbn [app].
  set (r := map Some (upfrom (a + 1) (Z.to_nat (b - a))) ++ rest) in *.
  change (pages_of (Some a :: r)) with (a :: pages_of r).
  cbn [gaps_between]. now rewrite (increasing_no_duplicate _ I), I, G.
Qed.

Lemma padded_range_invariant_holds (n k padding cap : Z) :
  1 <= k <= n -> 0 <= padding -> 0 <= cap ->
  cap = 0 \/ cap < k + padding \/ n <= k + padding ->
  padded_range_invariant (padded_range n k padding cap) = true.
Proof.
  intros Hk Hp Hc Hcase. rewrite padded_range_eq by assumption.
  unfold padded_range_spec.
  set (head_end := Z.min cap n).
  set (body_start := Z.max (head_end + 1) (k - padding)).
  set (body_end := Z.min (k + padding) n).
  set (tail_start := Z.max body_end (n - cap) + 1).
  destruct (Z.ltb_spec 0 cap) as [Hpos | Hzero]; cbn [andb].
  - assert (Tail : chain body_end
                     (if body_end <? n
                      then gap body_end tail_start ++ region tail_start n
                      else []) = true).
    { destruct (Z.ltb_spec body_end n) as [Hlt | _]; [| reflexivity].
      rewrite <- (app_nil_r (region tail_start n)).
      apply chain_gap_region; [lia | lia | reflexivity]. }
    rewrite <- app_assoc. apply invariant_region; [lia |].
    destruct (Z.le_gt_cases body_start body_end) as [Hbody | Hempty].
    + apply chain_gap_region; [lia | assumption | exact Tail].
    + assert (n <= k + padding) by lia.
      assert (body_start = head_end + 1) by lia.
      unfold gap, region.
      destruct (Z.ltb_spec (head_end + 1) body_start); [lia |].
      replace (Z.to_nat (body_end - body_start + 1)) with 0%nat by lia.
      destruct (Z.ltb_spec body_end n); [lia | reflexivity].
  - cbn [app]. rewrite app_nil_r.
    rewrite <- (app_nil_r (region body_start body_end)).
    apply invariant_region; [lia | reflexivity].
Qed.

(** ** URLs of pages *)

Section URLGeneratorFacts.

Variable reverse :
  string -> option (list pyobj) -> option pydict -> option string ->
  result string.
Variable urlencode : pydict -> string.

Lemma get_url_by_kwarg_page : forall (g : PageURLGenerator) (k : Z),
  k <> 1 \/ truthy_url (base_url g) = false ->
  get_url_by_kwarg reverse urlencode g k = Raise TypeError.
Proof.
  intros g k H. unfold get_url_by_kwarg.
  assert (E : (k =? 1) && truthy_url (base_url g) = false).
  { destruct H as [H | H].
    - destruct (Z.eqb_spec k 1); [contradiction | reflexivity].
    - rewrite H. apply andb_false_r. }
  rewrite E. reflexivity.
Qed.

Lemma init_Ok : forall q name args kwargs app parg g,
  PageURLGenerator_init reverse urlencode q name args kwargs app parg = Ok g ->
  get_url_method g = Some by_kwarg /\ truthy_url (base_url g) = true /\
  exists u, reverse name args kwargs app = Ok u /\ base_url g = Some u.
Proof.
  intros q name args kwargs app parg g. unfold PageURLGenerator_init.
  destruct (reverse name args kwargs app) as [u | e] eqn:R; cbn [bind].
  - cbn [catch_no_reverse_match bind].
    destruct (truthy_url (Some u)) eqn:T.
    + unfold get_url_by_kwarg. cbn [base_url]. rewrite T.
      cbn. intros [= <-]. cbn. repeat split; try assumption.
      exists u. now split.
    + rewrite get_url_by_kwarg_page by (right; exact T).
      cbn. discriminate.
  - destruct e; cbn; try discriminate.
Qed.

Lemma range_urls_loop_raises : forall g page_range urls,
  existsb truthy_entry page_range = true ->
  range_urls_loop reverse urlencode g page_range urls = Raise AttributeError.
Proof.
  intros g page_range. induction page_range as [| e r IH]; intros urls H.
  - discriminate.
  - cbn [range_urls_loop]. destruct e as [n |].
    + cbn [existsb] in H.
      destruct (truthy_entry (Some n)) eqn:T; [reflexivity |].
      cbn [bind]. apply IH. exact H.
    + cbn [bind]. apply IH. exact H.
Qed.

End URLGeneratorFacts.

(** C7, on every generator [__init__] returns.  Whatever the page-1
    trial found, [get_url] is [get_url_by_kwarg], and for a page number
    other than 1 it raises [TypeError] at the slice subscript, before
    the route is resolved again: no URL comes back. *)
Theorem get_url_raises
    (reverse : string -> option (list pyobj) -> option pydict ->
               option string -> result string)
    (urlencode : pydict -> string)
    (q : pydict) (name : string) (args : option (list pyobj))
    (kwargs : option pydict) (app : option string) (parg : string)
    (g : PageURLGenerator) (k : Z) :
  PageURLGenerator_init reverse urlencode q name args kwargs app parg = Ok g ->
  k <> 1 ->
  get_url_method g = Some by_kwarg /\
  get_url reverse urlencode g k = Raise TypeError.
Proof.
  intros Hg Hk. destruct (init_Ok _ _ _ _ _ _ _ _ _ Hg) as (M & _ & _).
  split; [exact M |].
  unfold get_url. rewrite M. apply get_url_by_kwarg_page. now left.
Qed.

Lemma get_url_raises_witness :
  exists g,
    PageURLGenerator_init widget_routes keys_urlencode
      [("q"%string, PyStr "foo")] "widget_list" None None None "page" = Ok g /\
    get_url widget_routes keys_urlencode g 1 = Ok (Some "/widgets/list/?q"%string) /\
    get_url widget_routes keys_urlencode g 2 = Raise TypeError.
Proof.
  eexists. split; [reflexivity |]. split; [reflexivity |].
  apply (get_url_raises widget_routes keys_urlencode
           [("q"%string, PyStr "foo")] "widget_list" None None None "page");
    [reflexivity | lia].
Defined.

(** C8, on every page range that holds a page number (other than 0):
    [range_urls] looks up [build_url], which the generator does not
    have, and raises [AttributeError]; no list of pairs comes back. *)
Theorem range_urls_raises
    (reverse : string -> option (list pyobj) -> option pydict ->
               option string -> result string)
    (urlencode : pydict -> string)
    (g : PageURLGenerator) (page_range : list (option Z)) :
  existsb truthy_entry page_range = true ->
  range_urls reverse urlencode g page_range = Raise AttributeError.
Proof.
  intros H. unfold range_urls. now apply range_urls_loop_raises.
Qed.

Lemma range_urls_raises_witness :
  exists g,
    PageURLGenerator_init widget_routes keys_urlencode [] "widget_list"
      None None None "page" = Ok g /\
    range_urls widget_routes keys_urlencode g
      [Some 1; Some 2; Some 3; Some 4; None; Some 6] = Raise AttributeError /\
    range_urls widget_routes keys_urlencode g [None] = Ok [(None, None)].
Proof.
  eexists. split; [reflexivity |]. split; [| reflexivity].
  apply range_urls_raises. reflexivity.
Defined.

(** C9, when the resolver finds no route for the configured name.
    [__init__] does fail, but out of the page-1 trial and with
    [TypeError]: the [ValueError] of the configuration check is never
    reached. *)
Theorem init_no_route_raises
    (reverse : string -> option (list pyobj) -> option pydict ->
               option string -> result string)
    (urlencode : pydict -> string)
    (q : pydict) (name : string) (args : option (list pyobj))
    (kwargs : option pydict) (app : option string) (parg : string) :
  reverse name args kwargs app = Raise NoReverseMatch ->
  PageURLGenerator_init reverse urlencode q name args kwargs app parg =
  Raise TypeError.
Proof.
  intros R. unfold PageURLGenerator_init. rewrite R.
  cbn [bind catch_no_reverse_match].
  rewrite get_url_by_kwarg_page by (right; reflexivity).
  reflexivity.
Qed.

Lemma init_no_route_raises_witness :
  PageURLGenerator_init no_routes keys_urlencode [] "widget_list"
    None None None "page" = Raise TypeError.
Proof.
  apply init_no_route_raises. reflexivity.
Defined.

(** * Further properties of the paginator *)

(** ** Ranges *)

Lemma in_py_range (lo hi n : Z) : In n (py_range lo hi) <-> lo <= n < hi.
Proof.
  unfold py_range. rewrite in_map_iff. split.
  - intros (i & <- & Hi). apply in_seq in Hi. lia.
  - intros H. exists (Z.to_nat (n - lo)). split; [lia |].
    apply in_seq. lia.
Qed.

Lemma length_py_range (lo hi : Z) :
  List.length (py_range lo hi) = Z.to_nat (hi - lo).
Proof. unfold py_range. now rewrite length_map, length_seq. Qed.

Lemma py_range_snoc (lo hi : Z) :
  lo <= hi -> py_range lo (hi + 1) = py_range lo hi ++ [hi].
Proof.
  intros H. unfold py_range.
  replace (Z.to_nat (hi + 1 - lo)) with (S (Z.to_nat (hi - lo))) by lia.
  rewrite seq_S, map_app. cbn [map]. do 2 f_equal. lia.
Qed.

Lemma py_range_empty (lo hi : Z) : hi <= lo -> py_range lo hi = [].
Proof.
  intros H. unfold py_range. now replace (Z.to_nat (hi - lo)) with 0%nat by lia.
Qed.

Lemma py_range_increasing (lo hi : Z) : increasing (py_range lo hi) = true.
Proof.
  unfold py_range. rewrite upfrom_seq.
  generalize (Z.to_nat (hi - lo)) as k. intros k. revert lo.
  induction k as [| k IH]; intros lo; [reflexivity |].
  cbn [upfrom]. specialize (IH (lo + 1)).
  destruct k as [| k]; [reflexivity |].
  cbn [upfrom increasing] in IH |- *. rewrite IH.
  now destruct (Z.ltb_spec lo (lo + 1)); [| lia].
Qed.

(** ** The page count and the bounds of a page *)

Lemma num_pages_ceiling {A : Type} (p : Paginator A) (m : Z) :
  0 < per_page p < 2 ^ 53 -> count p - orphans p < 2 ^ 53 ->
  num_pages p = Ok m -> 1 <= m ->
  is_ceiling m (Z.max 1 (count p - orphans p)) (per_page p).
Proof.
  intros Hp Hb Hm H1. rewrite (num_pages_eq p Hp Hb) in Hm.
  injection Hm as <-. unfold num_pages_spec in *.
  destruct ((count p =? 0) && negb (allow_empty_first_page p)); [lia |].
  apply ceil_quot_is_ceiling. lia.
Qed.

Lemma num_pages_zero {A : Type} (p : Paginator A) :
  0 < per_page p < 2 ^ 53 -> count p - orphans p < 2 ^ 53 ->
  num_pages p = Ok 0 -> object_list p = [].
Proof.
  intros Hp Hb Hm. rewrite (num_pages_eq p Hp Hb) in Hm. injection Hm as Hm.
  destruct Hp as [Hp _].
  unfold num_pages_spec in Hm.
  destruct (Z.eqb_spec (count p) 0) as [Hc | Hc].
  - unfold count in Hc.
    destruct (object_list p); [reflexivity | cbn in Hc; lia].
  - cbn [andb] in Hm.
    pose proof (ceil_quot_pos (Z.max 1 (count p - orphans p)) (per_page p) Hp
                  ltac:(lia)). lia.
Qed.

Lemma page_bounds {A : Type} (p : Paginator A) (m n : Z) :
  0 < per_page p < 2 ^ 53 -> count p - orphans p < 2 ^ 53 ->
  0 <= orphans p -> num_pages p = Ok m -> 1 <= n <= m ->
  0 <= bottom_of p n <= top_of p n /\ top_of p n <= count p /\
  (n < m -> top_of p n = n * per_page p) /\
  (n = m -> top_of p n = count p) /\
  (1 <= count p -> bottom_of p n < top_of p n).
Proof.
  intros Hp Hb Ho Hm Hn.
  pose proof (num_pages_ceiling p m Hp Hb Hm ltac:(lia)) as C.
  pose proof (count_nonneg p) as Hc. destruct Hp as [Hp _]. clear Hb.
  unfold is_ceiling in C. unfold top_of, bottom_of.
  replace ((n - 1) * per_page p + per_page p) with (n * per_page p) by lia.
  destruct (Z.eq_dec n m) as [-> | Hne].
  - destruct (Z.leb_spec (count p) (m * per_page p + orphans p)); [| lia].
    repeat split; try lia; nia.
  - assert (n * per_page p <= (m - 1) * per_page p)
      by (apply Z.mul_le_mono_nonneg_r; lia).
    assert (1 * per_page p <= n * per_page p)
      by (apply Z.mul_le_mono_nonneg_r; lia).
    destruct (Z.leb_spec (count p) (n * per_page p + orphans p)); [lia |].
    repeat split; try lia; nia.
Qed.

Lemma validate_number_range {A : Type} (p : Paginator A) (x : pyobj) (k : Z) :
  0 < per_page p < 2 ^ 53 -> count p - orphans p < 2 ^ 53 ->
  validate_number p x = Ok k ->
  exists m, num_pages p = Ok m /\ 1 <= k <= m.
Proof.
  intros Hp Hb Hv.
  destruct (validate_number_Ok p x k Hv) as (_ & Hk & m & Hm & Hor).
  exists m. split; [exact Hm |].
  destruct Hor as [Hle | [-> Ha]]; [lia |].
  rewrite (num_pages_eq p Hp Hb) in Hm. injection Hm as <-.
  unfold num_pages_spec. rewrite Ha, andb_false_r.
  pose proof (ceil_quot_pos (Z.max 1 (count p - orphans p)) (per_page p)
                (proj1 Hp) ltac:(lia)). lia.
Qed.

(** X1. For [0 < per_page < 2^53] and [count - orphans < 2^53],
    [page_range] lists, in increasing order, exactly the page numbers
    that [validate_number] accepts. *)
Theorem page_range_valid {A : Type} (p : Paginator A) :
  0 < per_page p < 2 ^ 53 ->
  count p - orphans p < 2 ^ 53 ->
  exists r m,
    page_range p = Ok r /\ num_pages p = Ok m /\
    List.length r = Z.to_nat m /\
    increasing r = true /\
    forall n, In n r <-> validate_number p (PyInt n) = Ok n.
Proof.
  intros Hp Hb. pose proof (num_pages_eq p Hp Hb) as Hm.
  exists (py_range 1 (num_pages_spec p + 1)), (num_pages_spec p).
  unfold page_range. rewrite Hm. cbn [bind].
  split; [reflexivity |]. split; [reflexivity |].
  split; [rewrite length_py_range; f_equal; lia |].
  split; [apply py_range_increasing |].
  intros n. rewrite in_py_range. split.
  - intros Hn. apply (validate_number_in_range p n _ Hm). lia.
  - intros Hv.
    destruct (validate_number_range p _ n Hp Hb Hv) as (m & Hm' & Hn).
    rewrite Hm in Hm'. injection Hm' as <-. lia.
Qed.

Lemma page_range_valid_witness :
  exists r m,
    page_range (mkPaginator (numbers 23) 10 5 true) = Ok r /\
    num_pages (mkPaginator (numbers 23) 10 5 true) = Ok m /\
    List.length r = Z.to_nat m.
Proof.
  destruct (page_range_valid (mkPaginator (numbers 23) 10 5 true)
              ltac:(cbn; lia) ltac:(cbn; lia)) as (r & m & Hr & Hm & Hl & _).
  exists r, m. now repeat split.
Defined.

(** ** The pages partition the collection *)

Lemma firstn_then_firstn {A : Type} (a b : nat) (l : list A) :
  firstn a l ++ firstn b (skipn a l) = firstn (a + b) l.
Proof.
  revert l. induction a as [| a IH]; intros l; [reflexivity |].
  destruct l as [| x l]; cbn [firstn skipn Nat.add app].
  - now rewrite firstn_nil.
  - now rewrite IH.
Qed.

Lemma py_slice_inside {A : Type} (l : list A) (lo hi : Z) :
  0 <= lo <= hi -> hi <= Z.of_nat (List.length l) ->
  py_slice l lo hi = firstn (Z.to_nat (hi - lo)) (skipn (Z.to_nat lo) l).
Proof.
  intros H Hh. unfold py_slice, slice_index.
  destruct (Z.ltb_spec lo 0); [lia |]. destruct (Z.ltb_spec hi 0); [lia |].
  now rewrite !Z.min_l by lia.
Qed.

Lemma py_slice_length {A : Type} (l : list A) (lo hi : Z) :
  0 <= lo <= hi -> hi <= Z.of_nat (List.length l) ->
  Z.of_nat (List.length (py_slice l lo hi)) = hi - lo.
Proof.
  intros H Hh. rewrite py_slice_inside by assumption.
  rewrite length_firstn, length_skipn. lia.
Qed.

Lemma concat_slices {A : Type} (l : list A) (pp k : Z) :
  0 < pp -> 0 <= k -> k * pp <= Z.of_nat (List.length l) ->
  List.concat (map (fun n => py_slice l ((n - 1) * pp) (n * pp))
            (py_range 1 (k + 1))) =
  firstn (Z.to_nat (k * pp)) l.
Proof.
  intros Hpp Hk. pattern k. apply natlike_ind; [| | exact Hk]; clear k Hk.
  - intros _. reflexivity.
  - intros k Hk IH Hlen. unfold Z.succ in *.
    rewrite py_range_snoc by lia. rewrite map_app, concat_app.
    rewrite IH by nia. cbn [map List.concat]. rewrite app_nil_r.
    rewrite py_slice_inside by nia.
    replace (k + 1 - 1) with k by lia.
    rewrite firstn_then_firstn. f_equal. nia.
Qed.

Lemma Forall2_map_r {X Y : Type} (R : X -> Y -> Prop) (f : X -> Y)
    (l : list X) :
  (forall x, In x l -> R x (f x)) -> Forall2 R l (map f l).
Proof.
  induction l as [| x l IH]; intros H; cbn; constructor.
  - apply H. now left.
  - apply IH. intros y Hy. apply H. now right.
Qed.

(** X2. For [0 < per_page < 2^53], [count - orphans < 2^53] and no
    negative [orphans], the pages of a paginator, taken in the order of
    [page_range], hold the whole collection: their items, put end to
    end, are the collection, each item once and in order. *)
Theorem pages_partition {A : Type} (p : Paginator A) (r : list Z) :
  0 < per_page p < 2 ^ 53 -> count p - orphans p < 2 ^ 53 ->
  0 <= orphans p ->
  page_range p = Ok r ->
  exists pgs,
    Forall2 (fun n pg => page p (PyInt n) = Ok pg) r pgs /\
    List.concat (map page_object_list pgs) = object_list p.
Proof.
  intros Hp Hx Ho Hr. unfold page_range in Hr.
  pose proof (num_pages_eq p Hp Hx) as Hm. rewrite Hm in Hr.
  cbn [bind] in Hr. injection Hr as <-.
  set (m := num_pages_spec p) in *.
  set (mk := fun n =>
               mkPage (py_slice (object_list p) (bottom_of p n) (top_of p n))
                 n p).
  exists (map mk (py_range 1 (m + 1))). split.
  - apply Forall2_map_r. intros n Hn. apply in_py_range in Hn.
    apply page_eq. apply (validate_number_in_range p n m Hm). lia.
  - rewrite map_map. cbn [mk page_object_list].
    assert (Hm0 : 0 <= m).
    { unfold m, num_pages_spec.
      destruct ((count p =? 0) && negb (allow_empty_first_page p)); [lia |].
      pose proof (ceil_quot_pos (Z.max 1 (count p - orphans p)) (per_page p)
                    (proj1 Hp) ltac:(lia)). lia. }
    destruct (Z.eq_dec m 0) as [E | E].
    + rewrite E in *. cbn. symmetry. now apply num_pages_zero.
    + destruct (page_bounds p m m Hp Hx Ho Hm ltac:(lia))
        as (Hb & Ht & _ & Hlast & _).
      specialize (Hlast eq_refl). unfold bottom_of in Hb.
      rewrite py_range_snoc by lia. rewrite map_app, concat_app.
      cbn [map List.concat]. rewrite app_nil_r.
      rewrite (map_ext_in _
                 (fun n => py_slice (object_list p)
                             ((n - 1) * per_page p) (n * per_page p))).
      2:{ intros n Hn. apply in_py_range in Hn.
          destruct (page_bounds p m n Hp Hx Ho Hm ltac:(lia))
            as (_ & _ & Hmid & _).
          rewrite (Hmid ltac:(lia)). reflexivity. }
      replace m with (m - 1 + 1) at 1 by lia.
      rewrite concat_slices; [| lia | lia | fold (count p); lia].
      rewrite Hlast. unfold bottom_of.
      rewrite py_slice_inside by (fold (count p); lia).
      rewrite (firstn_all2 (n := Z.to_nat (count p - (m - 1) * per_page p)))
        by (rewrite length_skipn; unfold count; lia).
      apply firstn_skipn.
Qed.

Lemma pages_partition_witness :
  exists pgs,
    Forall2 (fun n pg => page (mkPaginator (numbers 23) 10 5 true) (PyInt n)
                         = Ok pg) [1; 2] pgs /\
    List.concat (map page_object_list pgs) = numbers 23.
Proof.
  apply (pages_partition (mkPaginator (numbers 23) 10 5 true) [1; 2]);
    [cbn; lia | cbn; lia | cbn; lia | vm_compute; reflexivity].
Defined.

(** ** The size of a page *)

Lemma page_items {A : Type} (p : Paginator A) (m n : Z) :
  0 < per_page p < 2 ^ 53 -> count p - orphans p < 2 ^ 53 ->
  0 <= orphans p -> num_pages p = Ok m -> 1 <= n <= m ->
  page p (PyInt n) =
    Ok (mkPage (firstn (Z.to_nat (top_of p n - bottom_of p n))
                  (skipn (Z.to_nat (bottom_of p n)) (object_list p))) n p) /\
  Z.of_nat
    (List.length (firstn (Z.to_nat (top_of p n - bottom_of p n))
                    (skipn (Z.to_nat (bottom_of p n)) (object_list p)))) =
  top_of p n - bottom_of p n.
Proof.
  intros Hp Hx Ho Hm Hn.
  destruct (page_bounds p m n Hp Hx Ho Hm Hn) as (Hb & Ht & _).
  rewrite (page_eq p _ n (validate_number_in_range p n m Hm Hn)).
  rewrite <- py_slice_inside by assumption.
  split; [reflexivity |]. now apply py_slice_length.
Qed.

(** X3. For [0 < per_page < 2^53], [count - orphans < 2^53] and no
    negative [orphans]: every page before the last holds exactly [per_page] items; the
    last page holds what is left, which is more than [orphans] and at
    most [per_page + orphans] items when the collection has more than
    [orphans] items.  No page of a collection with items is empty. *)
Theorem page_sizes {A : Type} (p : Paginator A) (m n : Z) :
  0 < per_page p < 2 ^ 53 -> count p - orphans p < 2 ^ 53 ->
  0 <= orphans p -> num_pages p = Ok m -> 1 <= n <= m ->
  exists pg,
    page p (PyInt n) = Ok pg /\
    (n < m -> page_len pg = per_page p) /\
    (n = m -> page_len pg = count p - (m - 1) * per_page p) /\
    (n = m -> orphans p < count p ->
     orphans p < page_len pg <= per_page p + orphans p) /\
    (1 <= count p -> 1 <= page_len pg).
Proof.
  intros Hp Hx Ho Hm Hn.
  destruct (page_items p m n Hp Hx Ho Hm Hn) as [Hpg Hlen].
  destruct (page_bounds p m n Hp Hx Ho Hm Hn)
    as (Hb & Ht & Hmid & Hlast & Hne).
  pose proof (num_pages_ceiling p m Hp Hx Hm ltac:(lia)) as C.
  destruct Hp as [Hp _]. clear Hx.
  unfold is_ceiling in C.
  eexists. split; [exact Hpg |].
  unfold page_len. cbn [page_object_list]. rewrite Hlen.
  unfold bottom_of in *.
  repeat split.
  - intros H. rewrite (Hmid H). lia.
  - intros H. rewrite (Hlast H). now subst.
  - rewrite (Hlast H). subst n. lia.
  - rewrite (Hlast H). subst n. lia.
  - intros H. specialize (Hne H). lia.
Qed.

Lemma page_sizes_witness :
  exists pg,
    page (mkPaginator (numbers 23) 10 5 true) (PyInt 2) = Ok pg /\
    page_len pg = 13.
Proof.
  destruct (page_sizes (mkPaginator (numbers 23) 10 5 true) 2 2
              ltac:(cbn; lia) ltac:(cbn; lia) ltac:(cbn; lia)
              ltac:(vm_compute; reflexivity) ltac:(lia))
    as (pg & Hpg & _ & Hlast & _).
  exists pg. split; [exact Hpg |]. now rewrite Hlast.
Defined.

(** X4. For [0 < per_page < 2^53], [count - orphans < 2^53] and no
    negative [orphans], on a collection with items a page holds
    [end_index - start_index + 1] items. *)
Theorem page_len_indices {A : Type} (p : Paginator A) (m n : Z) :
  0 < per_page p < 2 ^ 53 -> count p - orphans p < 2 ^ 53 ->
  0 <= orphans p -> num_pages p = Ok m -> 1 <= n <= m ->
  1 <= count p ->
  exists pg e,
    page p (PyInt n) = Ok pg /\ end_index pg = Ok e /\
    page_len pg = e - start_index pg + 1.
Proof.
  intros Hp Hx Ho Hm Hn Hc.
  destruct (page_items p m n Hp Hx Ho Hm Hn) as [Hpg Hlen].
  destruct (page_bounds p m n Hp Hx Ho Hm Hn) as (_ & _ & Hmid & Hlast & _).
  eexists. exists (if n =? m then count p else n * per_page p).
  split; [exact Hpg |].
  unfold end_index, start_index, page_len.
  cbn [paginator number page_object_list]. rewrite Hm, Hlen. cbn [bind].
  split; [now destruct (n =? m) |].
  destruct (Z.eqb_spec (count p) 0); [lia |]. unfold bottom_of.
  destruct (Z.eqb_spec n m) as [E | E].
  - rewrite (Hlast E). lia.
  - rewrite (Hmid ltac:(lia)). lia.
Qed.

Lemma page_len_indices_witness :
  exists pg e,
    page (mkPaginator (numbers 23) 10 5 true) (PyInt 2) = Ok pg /\
    end_index pg = Ok e /\ page_len pg = e - start_index pg + 1.
Proof.
  apply (page_len_indices (mkPaginator (numbers 23) 10 5 true) 2 2);
    [cbn; lia | cbn; lia | cbn; lia | vm_compute; reflexivity | lia
    | cbn; lia].
Defined.

(** X5. For [0 < per_page < 2^53] and no negative [orphans], a
    collection of at most [per_page + orphans] items goes on one page:
    there is no second page and page 1 holds the collection. *)
Theorem single_page {A : Type} (p : Paginator A) :
  0 < per_page p < 2 ^ 53 -> 0 <= orphans p ->
  count p <= per_page p + orphans p ->
  exists m,
    num_pages p = Ok m /\ m <= 1 /\
    (m = 1 -> page p (PyInt 1) = Ok (mkPage (object_list p) 1 p)).
Proof.
  intros Hp Ho Hc. exists (num_pages_spec p).
  assert (Hx : count p - orphans p < 2 ^ 53) by lia.
  pose proof (num_pages_eq p Hp Hx) as Hm.
  split; [exact Hm |].
  assert (Hle : num_pages_spec p <= 1).
  { unfold num_pages_spec.
    destruct ((count p =? 0) && negb (allow_empty_first_page p)); [lia |].
    pose proof (ceil_quot_is_ceiling
                  (Z.max 1 (count p - orphans p)) (per_page p) (proj1 Hp))
      as C.
    unfold is_ceiling in C. nia. }
  split; [exact Hle |]. intros H1. rewrite H1 in Hm.
  destruct (page_items p 1 1 Hp Hx Ho Hm ltac:(lia)) as [Hpg _].
  destruct (page_bounds p 1 1 Hp Hx Ho Hm ltac:(lia))
    as (_ & _ & _ & Hlast & _).
  rewrite Hpg. rewrite (Hlast eq_refl). unfold bottom_of. cbn [Z.sub Z.mul].
  do 2 f_equal. rewrite Z.sub_0_r. unfold count. rewrite Nat2Z.id.
  cbn [Z.to_nat skipn]. apply firstn_all.
Qed.

Lemma single_page_witness :
  exists m,
    num_pages (mkPaginator (numbers 15) 10 5 true) = Ok m /\ m <= 1 /\
    (m = 1 ->
     page (mkPaginator (numbers 15) 10 5 true) (PyInt 1) =
     Ok (mkPage (numbers 15) 1 (mkPaginator (numbers 15) 10 5 true))).
Proof.
  apply single_page; cbn; lia.
Defined.

(** ** Items of a page *)

Lemma list_getitem_nonneg {A : Type} (l : list A) (i : Z) (x : A) :
  0 <= i -> nth_error l (Z.to_nat i) = Some x -> list_getitem l i = Item x.
Proof.
  intros Hi Hx. unfold list_getitem.
  assert (Hlt : (Z.to_nat i < List.length l)%nat)
    by (apply nth_error_Some; congruence).
  assert (E0 : (i <? 0) = false) by (apply Z.ltb_ge; lia).
  rewrite !E0.
  assert (E1 : (Z.of_nat (List.length l) <=? i) = false)
    by (apply Z.leb_gt; lia).
  rewrite E1. cbn [orb]. now rewrite Hx.
Qed.

Lemma list_getitem_negative {A : Type} (l : list A) (i : Z) :
  - Z.of_nat (List.length l) <= i < 0 ->
  list_getitem l i = list_getitem l (i + Z.of_nat (List.length l)).
Proof.
  intros Hi. unfold list_getitem.
  assert (E0 : (i <? 0) = true) by (apply Z.ltb_lt; lia).
  assert (E1 : (i + Z.of_nat (List.length l) <? 0) = false)
    by (apply Z.ltb_ge; lia).
  now rewrite E0, !E1.
Qed.

Lemma list_getitem_outside {A : Type} (l : list A) (i : Z) :
  Z.of_nat (List.length l) <= i \/ i < - Z.of_nat (List.length l) ->
  list_getitem l i = RaiseIndexError.
Proof.
  intros Hi. unfold list_getitem.
  destruct (Z.ltb_spec i 0) as [Hneg | Hpos].
  - assert (E : (i + Z.of_nat (List.length l) <? 0) = true)
      by (apply Z.ltb_lt; lia).
    now rewrite E.
  - assert (E : (Z.of_nat (List.length l) <=? i) = true)
      by (apply Z.leb_le; lia).
    rewrite E. now rewrite orb_true_r.
Qed.

Lemma py_slice_nth {A : Type} (l : list A) (lo hi i : Z) :
  0 <= lo -> 0 <= hi ->
  0 <= i < Z.of_nat (List.length (py_slice l lo hi)) ->
  nth_error (py_slice l lo hi) (Z.to_nat i) =
    nth_error l (Z.to_nat (lo + i)) /\
  lo + i < Z.of_nat (List.length l).
Proof.
  intros Hlo Hhi. unfold py_slice, slice_index.
  destruct (Z.ltb_spec lo 0); [lia |]. destruct (Z.ltb_spec hi 0); [lia |].
  set (len := Z.of_nat (List.length l)).
  rewrite length_firstn, length_skipn. intros Hi.
  assert (Hl : lo < len) by (unfold len in *; lia).
  rewrite (Z.min_l lo) in * by lia.
  split; [| unfold len in *; lia].
  rewrite nth_error_firstn.
  destruct (Nat.ltb_spec (Z.to_nat i) (Z.to_nat (Z.min hi len - lo)));
    [| lia].
  rewrite nth_error_skipn. f_equal. lia.
Qed.

(** X6. [page[i]], for [0 <= i < len(page)], is the item of the
    collection at the 1-based position [start_index + i], and
    [page[i - len(page)]] is the same item; an index from [len(page)]
    on, or below [-len(page)], raises [IndexError]: indexing never
    reaches into another page. *)
Theorem page_getitem_collection {A : Type} (p : Paginator A) (m n : Z)
    (pg : Page A) :
  0 < per_page p -> 0 <= orphans p -> num_pages p = Ok m -> 1 <= n <= m ->
  page p (PyInt n) = Ok pg ->
  (forall i, 0 <= i < page_len pg ->
     exists x,
       page_getitem pg (IndexObj (PyInt i)) = Item x /\
       page_getitem pg (IndexObj (PyInt (i - page_len pg))) = Item x /\
       nth_error (object_list p) (Z.to_nat (start_index pg - 1 + i)) =
         Some x) /\
  (forall i, page_len pg <= i \/ i < - page_len pg ->
     page_getitem pg (IndexObj (PyInt i)) = RaiseIndexError).
Proof.
  intros Hp Ho Hm Hn Hpg.
  rewrite (page_eq p _ n (validate_number_in_range p n m Hm Hn)) in Hpg.
  injection Hpg as <-.
  destruct (bounds_nonneg p n Hp ltac:(lia)) as [Hb Ht].
  unfold page_len, page_getitem, start_index.
  cbn [page_object_list paginator number].
  set (items := py_slice (object_list p) (bottom_of p n) (top_of p n)) in *.
  split.
  - intros i Hi.
    destruct (py_slice_nth (object_list p) _ _ i Hb Ht Hi) as [Hnth Hin].
    fold items in Hnth. fold (count p) in Hin.
    destruct (nth_error items (Z.to_nat i)) as [x |] eqn:Ex.
    2:{ apply nth_error_None in Ex. lia. }
    exists x.
    assert (Hc : (count p =? 0) = false) by (apply Z.eqb_neq; lia).
    rewrite Hc.
    split; [apply list_getitem_nonneg; [lia | exact Ex] |].
    split.
    + rewrite list_getitem_negative by lia.
      apply list_getitem_nonneg; [lia |].
      now replace (i - Z.of_nat (List.length items)
                   + Z.of_nat (List.length items)) with i by lia.
    + rewrite Hnth. f_equal. unfold bottom_of. lia.
  - intros i Hi. now apply list_getitem_outside.
Qed.

Lemma page_getitem_collection_witness :
  page_getitem (mkPage [10; 11; 12; 13; 14; 15; 16; 17; 18; 19; 20; 21; 22] 2
                  (mkPaginator (numbers 23) 10 5 true))
    (IndexObj (PyInt 13)) = RaiseIndexError.
Proof.
  destruct (page_getitem_collection (mkPaginator (numbers 23) 10 5 true) 2 2
              (mkPage [10; 11; 12; 13; 14; 15; 16; 17; 18; 19; 20; 21; 22] 2
                 (mkPaginator (numbers 23) 10 5 true))
              ltac:(cbn; lia) ltac:(cbn; lia) ltac:(vm_compute; reflexivity)
              ltac:(lia) ltac:(vm_compute; reflexivity))
    as [_ Herr].
  apply Herr. left. cbn. lia.
Defined.

(** X17. [page[lo:hi]] with [0 <= lo <= hi <= len(page)] is a list of
    [hi - lo] items, the item [k] of it being [page[lo + k]]; [page[:]]
    is the list of all items of the page. *)
Theorem page_getitem_slice {A : Type} (pg : Page A) (lo hi : Z) :
  0 <= lo <= hi -> hi <= page_len pg ->
  exists items,
    page_getitem pg (IndexSlice (Some lo) (Some hi)) = Items items /\
    Z.of_nat (List.length items) = hi - lo /\
    (forall k x, 0 <= k < hi - lo ->
       (nth_error items (Z.to_nat k) = Some x <->
        page_getitem pg (IndexObj (PyInt (lo + k))) = Item x)) /\
    page_getitem pg (IndexSlice None None) = Items (page_object_list pg).
Proof.
  intros Hlo Hhi. unfold page_len in Hhi. unfold page_getitem.
  set (l := page_object_list pg) in *.
  exists (py_slice l lo hi). split; [reflexivity |].
  split; [now apply py_slice_length |]. split.
  - intros k x Hk. rewrite py_slice_inside by assumption.
    rewrite nth_error_firstn.
    destruct (Nat.ltb_spec (Z.to_nat k) (Z.to_nat (hi - lo))); [| lia].
    rewrite nth_error_skipn.
    replace (Z.to_nat lo + Z.to_nat k)%nat with (Z.to_nat (lo + k)) by lia.
    split.
    + intros Hx. apply list_getitem_nonneg; [lia | exact Hx].
    + intros Hx. unfold list_getitem in Hx.
      assert (E0 : (lo + k <? 0) = false) by (apply Z.ltb_ge; lia).
      rewrite !E0 in Hx.
      assert (E1 : (Z.of_nat (List.length l) <=? lo + k) = false)
        by (apply Z.leb_gt; lia).
      rewrite E1 in Hx. cbn [orb] in Hx.
      destruct (nth_error l (Z.to_nat (lo + k))); congruence.
  - f_equal. rewrite py_slice_inside by lia.
    rewrite Z.sub_0_r, Nat2Z.id. cbn [Z.to_nat skipn]. apply firstn_all.
Qed.

Lemma page_getitem_slice_witness :
  exists items,
    page_getitem (mkPage [10; 11; 12; 13] 2
                    (mkPaginator (numbers 14) 10 0 true))
      (IndexSlice (Some 1) (Some 3)) = Items items /\
    Z.of_nat (List.length items) = 2.
Proof.
  destruct (page_getitem_slice
              (mkPage [10; 11; 12; 13] 2 (mkPaginator (numbers 14) 10 0 true))
              1 3 ltac:(lia) ltac:(cbn; lia))
    as (items & Hitems & Hlen & _).
  exists items. now split.
Defined.

(** X18. A larger collection never has fewer pages: with the same
    [per_page] below [2^53], the same [orphans] and empty-first-page
    policy, and [count - orphans < 2^53] for the larger one, the page
    count grows with the item count. *)
Theorem num_pages_monotone {A : Type} (p p' : Paginator A) :
  0 < per_page p < 2 ^ 53 ->
  per_page p' = per_page p -> orphans p' = orphans p ->
  allow_empty_first_page p' = allow_empty_first_page p ->
  count p <= count p' ->
  count p' - orphans p' < 2 ^ 53 ->
  exists m m', num_pages p = Ok m /\ num_pages p' = Ok m' /\ m <= m'.
Proof.
  intros Hp Epp Eo Ea Hc Hx.
  exists (num_pages_spec p), (num_pages_spec p').
  split; [apply num_pages_eq; lia |].
  split; [apply num_pages_eq; lia |].
  pose proof (count_nonneg p) as H0. destruct Hp as [Hp _]. clear Hx.
  unfold num_pages_spec. rewrite Epp, Eo, Ea.
  assert (Mono : ceil_quot (Z.max 1 (count p - orphans p)) (per_page p) <=
                 ceil_quot (Z.max 1 (count p' - orphans p)) (per_page p)).
  { unfold ceil_quot. apply Z.div_le_mono; lia. }
  pose proof (ceil_quot_pos (Z.max 1 (count p' - orphans p)) (per_page p) Hp
                ltac:(lia)) as Pos.
  destruct (Z.eqb_spec (count p) 0) as [E | E];
    destruct (Z.eqb_spec (count p') 0) as [E' | E'];
    destruct (allow_empty_first_page p); cbn [andb negb]; lia.
Qed.

Lemma num_pages_monotone_witness :
  exists m m',
    num_pages (mkPaginator (numbers 23) 10 5 true) = Ok m /\
    num_pages (mkPaginator (numbers 40) 10 5 true) = Ok m' /\ m <= m'.
Proof.
  apply num_pages_monotone; try reflexivity; cbn; lia.
Defined.

(** ** Moving between pages *)

(** X7. On a page that [page] returned, [has_next] and [has_previous]
    tell whether [next_page_number] and [previous_page_number] return
    the neighbouring number or raise [EmptyPage]; and a page within the
    page count has other pages exactly when there is more than one
    page. *)
Theorem page_navigation {A : Type} (p : Paginator A) (x : pyobj)
    (pg : Page A) :
  page p x = Ok pg ->
  exists m,
    num_pages p = Ok m /\
    has_next pg = Ok (number pg <? m) /\
    (number pg < m -> next_page_number pg = Ok (number pg + 1)) /\
    (m <= number pg -> next_page_number pg = Raise EmptyPage) /\
    (has_previous pg = true ->
     previous_page_number pg = Ok (number pg - 1)) /\
    (has_previous pg = false ->
     previous_page_number pg = Raise EmptyPage) /\
    (number pg <= m -> has_other_pages pg = Ok (1 <? m)).
Proof.
  intros Hpg. unfold page in Hpg.
  destruct (validate_number p x) as [n | e] eqn:Hv; [| discriminate].
  cbn [bind] in Hpg. injection Hpg as <-.
  destruct (validate_number_Ok p x n Hv) as (_ & Hn & m & Hm & Hor).
  exists m. split; [exact Hm |].
  unfold has_other_pages, has_next, has_previous, next_page_number,
    previous_page_number.
  cbn [number paginator]. rewrite Hm. cbn [bind].
  rewrite !(validate_number_eq p _ m Hm). cbn [py_int validate_number_spec].
  split; [reflexivity |]. repeat split.
  - intros H. destruct (Z.ltb_spec (n + 1) 1); [lia |].
    now destruct (Z.ltb_spec m (n + 1)); [lia |].
  - intros H. destruct (Z.ltb_spec (n + 1) 1); [lia |].
    destruct (Z.ltb_spec m (n + 1)); [| lia].
    now destruct (Z.eqb_spec (n + 1) 1); [lia |].
  - intros H. apply Z.gtb_lt in H.
    destruct (Z.ltb_spec (n - 1) 1); [lia |].
    now destruct (Z.ltb_spec m (n - 1)); [lia |].
  - intros H. rewrite Z.gtb_ltb in H. apply Z.ltb_ge in H.
    now destruct (Z.ltb_spec (n - 1) 1); [| lia].
  - intros H. rewrite Z.gtb_ltb.
    destruct (Z.ltb_spec 1 n), (Z.ltb_spec n m), (Z.ltb_spec 1 m);
      try reflexivity; lia.
Qed.

Lemma page_navigation_witness :
  exists pg,
    page (mkPaginator (numbers 23) 10 5 true) (PyStr "2") = Ok pg /\
    has_next pg = Ok false /\
    next_page_number pg = Raise EmptyPage /\
    previous_page_number pg = Ok 1.
Proof.
  exists (mkPage [10; 11; 12; 13; 14; 15; 16; 17; 18; 19; 20; 21; 22] 2
            (mkPaginator (numbers 23) 10 5 true)).
  split; [vm_compute; reflexivity |].
  destruct (page_navigation (mkPaginator (numbers 23) 10 5 true) (PyStr "2")
              _ ltac:(vm_compute; reflexivity))
    as (m & Hm & Hnext & _ & Hlast & Hprev & _).
  assert (E : m = 2).
  { assert (N : num_pages (mkPaginator (numbers 23) 10 5 true) = Ok 2)
      by (vm_compute; reflexivity).
    rewrite N in Hm. now injection Hm. }
  subst m.
  split; [exact Hnext |].
  split; [apply Hlast; cbn; lia | apply Hprev; reflexivity].
Defined.

(** ** What the padded range shows *)

Lemma in_region (i a b : Z) : In (Some i) (region a b) <-> a <= i <= b.
Proof.
  rewrite <- py_range_region, in_map_iff. split.
  - intros (j & [= ->] & Hj). apply in_py_range in Hj. lia.
  - intros H. exists i. split; [reflexivity |]. apply in_py_range. lia.
Qed.

Lemma in_gap (i a b : Z) : ~ In (Some i) (gap a b).
Proof.
  unfold gap. destruct (a + 1 <? b); cbn; [intros [H | []] |]; easy.
Qed.

Lemma length_region (a b : Z) :
  List.length (region a b) = Z.to_nat (b - a + 1).
Proof.
  rewrite <- py_range_region, length_map, length_py_range. f_equal. lia.
Qed.

Lemma length_gap (a b : Z) : (List.length (gap a b) <= 1)%nat.
Proof. unfold gap. destruct (a + 1 <? b); cbn; lia. Qed.

Lemma in_padded_range_spec (n k padding cap i : Z) :
  In (Some i) (padded_range_spec n k padding cap) <->
  (0 < cap /\ 1 <= i <= Z.min cap n) \/
  (Z.max (Z.min cap n + 1) (k - padding) <= i <= Z.min (k + padding) n) \/
  (0 < cap /\ Z.min (k + padding) n < n /\
   Z.max (Z.min (k + padding) n) (n - cap) + 1 <= i <= n).
Proof.
  unfold padded_range_spec.
  rewrite !in_app_iff.
  destruct (Z.ltb_spec 0 cap) as [Hc | Hc]; cbn [andb].
  - destruct (Z.ltb_spec (Z.min (k + padding) n) n) as [Hb | Hb];
      rewrite ?in_app_iff, !in_region;
      pose proof (in_gap i (Z.min cap n)
                    (Z.max (Z.min cap n + 1) (k - padding))) as G1;
      pose proof (in_gap i (Z.min (k + padding) n)
                    (Z.max (Z.min (k + padding) n) (n - cap) + 1)) as G2;
      cbn [In]; intuition lia.
  - rewrite in_region. cbn [In]. intuition lia.
Qed.

(** X8. For a page within the page count and [padding], [cap] not
    negative, the padded range shows the current page, every page
    within [padding] of it, the first [cap] pages and, when there are
    caps, the first and the last page. *)
Theorem padded_page_range_shows {A : Type} (pg : Page A)
    (n padding cap : Z) :
  num_pages (paginator pg) = Ok n ->
  1 <= number pg <= n -> 0 <= padding -> 0 <= cap ->
  exists r,
    padded_page_range pg padding cap = Ok r /\
    In (Some (number pg)) r /\
    (forall i, 1 <= i <= n ->
               number pg - padding <= i <= number pg + padding ->
               In (Some i) r) /\
    (forall i, 1 <= i <= n -> i <= cap -> In (Some i) r) /\
    (0 < cap -> In (Some 1) r /\ In (Some n) r).
Proof.
  intros Hn Hk Hp Hc. unfold padded_page_range. rewrite Hn. cbn [bind].
  eexists. split; [reflexivity |].
  rewrite padded_range_eq by assumption.
  repeat split; try intros i Hi Hw; try intros Hpos;
    apply in_padded_range_spec; lia.
Qed.

Lemma padded_page_range_shows_witness :
  exists r,
    padded_page_range (mkPage [0] 1 (mkPaginator (numbers 10) 1 0 true)) 0 5
      = Ok r /\
    In (Some 1) r /\ In (Some 10) r.
Proof.
  destruct (padded_page_range_shows
              (mkPage [0] 1 (mkPaginator (numbers 10) 1 0 true)) 10 0 5
              ltac:(vm_compute; reflexivity) ltac:(cbn; lia) ltac:(lia)
              ltac:(lia))
    as (r & Hr & _ & _ & _ & Hends).
  exists r. split; [exact Hr |]. apply Hends. lia.
Defined.

(** X9. For a page within the page count and [padding], [cap] not
    negative, every page number of the padded range is a page of the
    paginator. *)
Theorem padded_page_range_valid {A : Type} (pg : Page A)
    (n padding cap : Z) :
  num_pages (paginator pg) = Ok n ->
  1 <= number pg <= n -> 0 <= padding -> 0 <= cap ->
  exists r,
    padded_page_range pg padding cap = Ok r /\
    forall i, In (Some i) r ->
              1 <= i <= n /\
              validate_number (paginator pg) (PyInt i) = Ok i.
Proof.
  intros Hn Hk Hp Hc. unfold padded_page_range. rewrite Hn. cbn [bind].
  eexists. split; [reflexivity |].
  rewrite padded_range_eq by assumption.
  intros i Hi. apply in_padded_range_spec in Hi.
  assert (1 <= i <= n) by lia.
  split; [assumption |]. now apply (validate_number_in_range _ i n).
Qed.

Lemma padded_page_range_valid_witness :
  exists r,
    padded_page_range (mkPage [0] 1 (mkPaginator (numbers 3) 1 0 true)) 0 2
      = Ok r /\
    forall i, In (Some i) r -> 1 <= i <= 3.
Proof.
  destruct (padded_page_range_valid
              (mkPage [0] 1 (mkPaginator (numbers 3) 1 0 true)) 3 0 2
              ltac:(vm_compute; reflexivity) ltac:(cbn; lia) ltac:(lia)
              ltac:(lia))
    as (r & Hr & Hin).
  exists r. split; [exact Hr |]. intros i Hi. now apply Hin.
Defined.

(** X10. The padded range has at most [2*cap + 2*padding + 3] entries,
    however many pages there are. *)
Theorem padded_page_range_length {A : Type} (pg : Page A)
    (n padding cap : Z) :
  num_pages (paginator pg) = Ok n ->
  0 <= padding -> 0 <= cap ->
  exists r,
    padded_page_range pg padding cap = Ok r /\
    Z.of_nat (List.length r) <= 2 * cap + 2 * padding + 3.
Proof.
  intros Hn Hp Hc. unfold padded_page_range. rewrite Hn. cbn [bind].
  eexists. split; [reflexivity |].
  rewrite padded_range_eq by assumption. unfold padded_range_spec.
  set (k := number pg).
  set (head_end := Z.min cap n).
  set (body_start := Z.max (head_end + 1) (k - padding)).
  set (body_end := Z.min (k + padding) n).
  set (tail_start := Z.max body_end (n - cap) + 1).
  pose proof (length_gap head_end body_start) as G1.
  pose proof (length_gap body_end tail_start) as G2.
  destruct (0 <? cap), (body_end <? n); cbn [andb];
    rewrite !length_app, ?length_app, !length_region; cbn [List.length];
    lia.
Qed.

Lemma padded_page_range_length_witness :
  exists r,
    padded_page_range
      (mkPage [49] 50 (mkPaginator (numbers 100) 1 0 true)) 3 1 = Ok r /\
    Z.of_nat (List.length r) <= 11.
Proof.
  apply (padded_page_range_length
           (mkPage [49] 50 (mkPaginator (numbers 100) 1 0 true)) 100 3 1);
    [vm_compute; reflexivity | lia | lia].
Defined.

Lemma upfrom_app (k1 k2 : nat) : forall a,
  upfrom a (k1 + k2) = upfrom a k1 ++ upfrom (a + Z.of_nat k1) k2.
Proof.
  induction k1 as [| k1 IH]; intros a.
  - cbn. now rewrite Z.add_0_r.
  - cbn [Nat.add upfrom app]. rewrite IH. do 3 f_equal. lia.
Qed.

Lemma region_app (a b c : Z) :
  a <= b + 1 -> b <= c -> region a b ++ region (b + 1) c = region a c.
Proof.
  intros Hab Hbc. unfold region. rewrite <- map_app. f_equal.
  replace (Z.to_nat (c - a + 1))
    with (Z.to_nat (b - a + 1) + Z.to_nat (c - (b + 1) + 1))%nat by lia.
  rewrite upfrom_app. do 2 f_equal. lia.
Qed.

(** X11. When the padding reaches both the first and the last page,
    the padded range is the whole [page_range], with no gap marker,
    whatever the cap. *)
Theorem padded_page_range_all {A : Type} (pg : Page A) (n padding cap : Z) :
  num_pages (paginator pg) = Ok n ->
  1 <= number pg <= n -> 0 <= cap ->
  number pg - padding <= 1 -> n <= number pg + padding ->
  padded_page_range pg padding cap =
  (r <- page_range (paginator pg) ;; Ok (map Some r)).
Proof.
  intros Hn Hk Hc Hlo Hhi. unfold padded_page_range, page_range.
  rewrite Hn. cbn [bind]. f_equal.
  rewrite padded_range_eq by assumption. rewrite py_range_region.
  unfold padded_range_spec.
  replace (Z.max (Z.min cap n + 1) (number pg - padding))
    with (Z.min cap n + 1) by lia.
  replace (Z.min (number pg + padding) n) with n by lia.
  rewrite Z.ltb_irrefl, andb_false_r, app_nil_r.
  unfold gap. rewrite Z.ltb_irrefl, app_nil_r.
  destruct (Z.ltb_spec 0 cap) as [Hpos | Hzero].
  - apply region_app; lia.
  - now replace (Z.min cap n + 1) with 1 by lia.
Qed.

Lemma padded_page_range_all_witness :
  padded_page_range (mkPage [2] 3 (mkPaginator (numbers 6) 1 0 true)) 5 1 =
  Ok [Some 1; Some 2; Some 3; Some 4; Some 5; Some 6].
Proof.
  rewrite (padded_page_range_all _ 6 5 1);
    [vm_compute; reflexivity | vm_compute; reflexivity | cbn; lia | lia
    | cbn; lia | cbn; lia].
Defined.

(** X12. With no caps, or a cap below [number + padding], or a body
    region that reaches the last page, the padded range keeps its
    invariant: no page twice, pages increasing, and a gap marker only
    between two pages that are not adjacent. *)
Theorem padded_page_range_invariant {A : Type} (pg : Page A)
    (n padding cap : Z) :
  num_pages (paginator pg) = Ok n ->
  1 <= number pg <= n -> 0 <= padding -> 0 <= cap ->
  cap = 0 \/ cap < number pg + padding \/ n <= number pg + padding ->
  exists r,
    padded_page_range pg padding cap = Ok r /\
    padded_range_invariant r = true.
Proof.
  intros Hn Hk Hp Hc Hcase. unfold padded_page_range. rewrite Hn.
  cbn [bind]. eexists. split; [reflexivity |].
  now apply padded_range_invariant_holds.
Qed.

Lemma padded_page_range_invariant_witness :
  exists r,
    padded_page_range (mkPage [4] 5 (mkPaginator (numbers 9) 1 0 true)) 1 2
      = Ok r /\
    padded_range_invariant r = true.
Proof.
  apply (padded_page_range_invariant _ 9 1 2);
    [vm_compute; reflexivity | cbn; lia | lia | lia | cbn; lia].
Defined.

(** * Further properties of the URL generator *)

Lemma dict_get_app (d1 d2 : pydict) (k : string) :
  dict_get (d1 ++ d2) k =
  match dict_get d1 k with
  | Some v => Some v
  | None => dict_get d2 k
  end.
Proof.
  induction d1 as [| [k' v] d1 IH]; [reflexivity |].
  cbn [app dict_get]. now destruct (String.eqb k k').
Qed.

Lemma dict_get_del (d : pydict) (k k' : string) :
  dict_get (dict_del d k) k' = if String.eqb k k' then None else dict_get d k'.
Proof.
  unfold dict_del. induction d as [| [k0 v] d IH].
  - cbn. now destruct (String.eqb k k').
  - cbn [filter fst dict_get].
    destruct (String.eqb_spec k k0) as [E0 | Hne]; cbn [negb dict_get];
      rewrite IH; destruct (String.eqb_spec k k') as [E | Hne'];
      destruct (String.eqb_spec k' k0) as [E' | Hne'']; congruence.
Qed.

Lemma dict_get_set (d : pydict) (k k' : string) (v : pyobj) :
  dict_get (dict_set d k v) k' =
  if String.eqb k k' then Some v else dict_get d k'.
Proof.
  unfold dict_set. rewrite dict_get_app, dict_get_del.
  destruct (String.eqb_spec k k') as [<- | Hne].
  - cbn. now rewrite String.eqb_refl.
  - destruct (dict_get d k'); [reflexivity |]. cbn.
    destruct (String.eqb_spec k' k); [congruence | reflexivity].
Qed.

Section URLGeneratorMore.

Variable reverse :
  string -> option (list pyobj) -> option pydict -> option string ->
  result string.
Variable urlencode : pydict -> string.

Lemma init_resolved : forall q name args kwargs app parg u,
  reverse name args kwargs app = Ok u -> u <> ""%string ->
  PageURLGenerator_init reverse urlencode q name args kwargs app parg =
  Ok (mkPageURLGenerator name args kwargs app parg (Some u) q (Some by_kwarg)).
Proof.
  intros q name args kwargs app parg u R Hu. unfold PageURLGenerator_init.
  rewrite R. cbn [bind catch_no_reverse_match].
  unfold get_url_by_kwarg. cbn [base_url truthy_url Z.eqb Pos.eqb andb].
  destruct (String.eqb_spec u ""); [contradiction |]. reflexivity.
Qed.

Lemma init_unresolved : forall q name args kwargs app parg,
  reverse name args kwargs app = Ok ""%string ->
  PageURLGenerator_init reverse urlencode q name args kwargs app parg =
  Raise TypeError.
Proof.
  intros q name args kwargs app parg R. unfold PageURLGenerator_init.
  rewrite R. reflexivity.
Qed.

Lemma range_urls_loop_gaps : forall g page_range urls,
  existsb truthy_entry page_range = false ->
  range_urls_loop reverse urlencode g page_range urls =
  Ok (urls ++ map (fun e => (e, None)) page_range).
Proof.
  intros g page_range. induction page_range as [| e r IH]; intros urls H.
  - cbn. now rewrite app_nil_r.
  - cbn [existsb] in H. apply orb_false_iff in H as [He Hr].
    cbn [range_urls_loop map]. destruct e as [n |].
    + rewrite He. cbn [bind]. rewrite (IH _ Hr), <- app_assoc. reflexivity.
    + cbn [bind]. rewrite (IH _ Hr), <- app_assoc. reflexivity.
Qed.

End URLGeneratorMore.

(** X13. What [__init__] does is decided by the one call of [reverse]
    on the base route: a URL that is not empty gives a generator whose
    [get_url] is [get_url_by_kwarg] and whose query parameters are the
    ones given, the page parameter included; an empty URL or
    [NoReverseMatch] gives [TypeError]; any other exception of
    [reverse] is passed on.  The query-string method is never bound. *)
Theorem init_outcome
    (reverse : string -> option (list pyobj) -> option pydict ->
               option string -> result string)
    (urlencode : pydict -> string)
    (q : pydict) (name : string) (args : option (list pyobj))
    (kwargs : option pydict) (app : option string) (parg : string) :
  PageURLGenerator_init reverse urlencode q name args kwargs app parg =
    match reverse name args kwargs app with
    | Ok u =>
        if String.eqb u "" then Raise TypeError
        else Ok (mkPageURLGenerator name args kwargs app parg (Some u) q
                   (Some by_kwarg))
    | Raise NoReverseMatch => Raise TypeError
    | Raise e => Raise e
    end /\
  (forall g,
     PageURLGenerator_init reverse urlencode q name args kwargs app parg =
       Ok g ->
     get_url_method g = Some by_kwarg /\ querydict g = q).
Proof.
  assert (E : PageURLGenerator_init reverse urlencode q name args kwargs app
                parg =
              match reverse name args kwargs app with
              | Ok u =>
                  if String.eqb u "" then Raise TypeError
                  else Ok (mkPageURLGenerator name args kwargs app parg
                             (Some u) q (Some by_kwarg))
              | Raise NoReverseMatch => Raise TypeError
              | Raise e => Raise e
              end).
  { destruct (reverse name args kwargs app) as [u | e] eqn:R.
    - destruct (String.eqb_spec u "") as [-> | Hu].
      + now apply init_unresolved.
      + now apply init_resolved.
    - unfold PageURLGenerator_init. rewrite R. destruct e; reflexivity. }
  split; [exact E |].
  intros g Hg. rewrite E in Hg.
  destruct (reverse name args kwargs app) as [u | e].
  - destruct (String.eqb u ""); [discriminate |]. injection Hg as <-.
    now split.
  - destruct e; discriminate.
Qed.

Lemma init_outcome_witness :
  exists g,
    PageURLGenerator_init widget_routes keys_urlencode
      [("page"%string, PyStr "3")] "widget_list" None None None "page"
      = Ok g /\
    get_url_method g = Some by_kwarg /\
    querydict g = [("page"%string, PyStr "3")].
Proof.
  eexists. split; [reflexivity |].
  destruct (init_outcome widget_routes keys_urlencode
              [("page"%string, PyStr "3")] "widget_list" None None None
              "page") as [_ H].
  apply H. reflexivity.
Defined.

(** X14. On a generator [__init__] returned, [get_url(1)] is the URL
    of the base route followed by the whole query string, or the bare
    URL when there are no query parameters. *)
Theorem get_url_first_page
    (reverse : string -> option (list pyobj) -> option pydict ->
               option string -> result string)
    (urlencode : pydict -> string)
    (q : pydict) (name : string) (args : option (list pyobj))
    (kwargs : option pydict) (app : option string) (parg : string)
    (g : PageURLGenerator) :
  PageURLGenerator_init reverse urlencode q name args kwargs app parg = Ok g ->
  exists u,
    reverse name args kwargs app = Ok u /\
    (q = [] -> get_url reverse urlencode g 1 = Ok (Some u)) /\
    (q <> [] ->
     get_url reverse urlencode g 1 =
     Ok (Some (u ++ "?" ++ urlencode q)%string)).
Proof.
  intros Hg.
  destruct (init_Ok reverse urlencode _ _ _ _ _ _ _ Hg)
    as (M & T & u & R & B).
  assert (Q : querydict g = q).
  { rewrite (init_resolved reverse urlencode q name args kwargs app parg u R)
      in Hg.
    - now injection Hg as <-.
    - intros ->. rewrite B in T. discriminate. }
  exists u. split; [exact R |].
  unfold get_url, get_url_by_kwarg. rewrite M, T, B, Q. cbn.
  split.
  - now intros ->.
  - intros Hq. destruct q; [contradiction | reflexivity].
Qed.

Lemma get_url_first_page_witness :
  exists g,
    PageURLGenerator_init widget_routes keys_urlencode
      [("page"%string, PyStr "3"); ("q"%string, PyStr "foo")]
      "widget_list" None None None "page" = Ok g /\
    get_url widget_routes keys_urlencode g 1 =
    Ok (Some "/widgets/list/?page&q"%string).
Proof.
  eexists. split; [reflexivity |].
  destruct (get_url_first_page widget_routes keys_urlencode
              [("page"%string, PyStr "3"); ("q"%string, PyStr "foo")]
              "widget_list" None None None "page" _ eq_refl)
    as (u & R & _ & H).
  injection R as <-. apply H. discriminate.
Defined.

(** X15. [get_url_by_querydict] never raises.  For page 1 it gives the
    base URL with the query parameters as they are; for another page
    the query string is made from the parameters with the page
    parameter set to that page and every other parameter unchanged. *)
Theorem get_url_by_querydict_page
    (urlencode : pydict -> string) (g : PageURLGenerator) (k : Z) :
  (k = 1 ->
   get_url_by_querydict urlencode g k =
   Ok (build_full_url urlencode (base_url g) (querydict g))) /\
  (k <> 1 ->
   exists q',
     get_url_by_querydict urlencode g k =
       Ok (Some (format_url (base_url g) ++ "?" ++ urlencode q')%string) /\
     dict_get q' (page_arg g) = Some (PyInt k) /\
     forall key, key <> page_arg g ->
                 dict_get q' key = dict_get (querydict g) key).
Proof.
  unfold get_url_by_querydict. split.
  - intros ->. reflexivity.
  - intros Hk. destruct (Z.eqb_spec k 1) as [| _]; [contradiction |].
    cbn [negb]. exists (dict_set (querydict g) (page_arg g) (PyInt k)).
    repeat split.
    + unfold dict_set, build_full_url.
      destruct (dict_del (querydict g) (page_arg g)); reflexivity.
    + rewrite dict_get_set. now rewrite String.eqb_refl.
    + intros key Hkey. rewrite dict_get_set.
      destruct (String.eqb_spec (page_arg g) key); [congruence | reflexivity].
Qed.

Lemma get_url_by_querydict_page_witness :
  get_url_by_querydict keys_urlencode
    (mkPageURLGenerator "search" None None None "page" (Some "/search/"%string)
       [("q"%string, PyStr "foo")] (Some by_querydict)) 1 =
  Ok (Some "/search/?q"%string) /\
  exists q',
    get_url_by_querydict keys_urlencode
      (mkPageURLGenerator "search" None None None "page" (Some "/search/"%string)
         [("q"%string, PyStr "foo")] (Some by_querydict)) 3 =
    Ok (Some ("/search/" ++ "?" ++ keys_urlencode q')%string) /\
    dict_get q' "page"%string = Some (PyInt 3).
Proof.
  destruct (get_url_by_querydict_page keys_urlencode
              (mkPageURLGenerator "search" None None None "page"
                 (Some "/search/"%string) [("q"%string, PyStr "foo")] (Some by_querydict)) 1)
    as [H1 _].
  destruct (get_url_by_querydict_page keys_urlencode
              (mkPageURLGenerator "search" None None None "page"
                 (Some "/search/"%string) [("q"%string, PyStr "foo")] (Some by_querydict)) 3)
    as [_ H3].
  split; [now rewrite H1 |].
  destruct (H3 ltac:(lia)) as (q' & Hq & Hp & _).
  exists q'. now split.
Defined.

(** X16. [range_urls] returns exactly on the page ranges that hold no
    page number (gap markers and zeros only), and then pairs every
    entry with [None]. *)
Theorem range_urls_returns
    (reverse : string -> option (list pyobj) -> option pydict ->
               option string -> result string)
    (urlencode : pydict -> string)
    (g : PageURLGenerator) (page_range : list (option Z))
    (urls : list (option Z * option string)) :
  range_urls reverse urlencode g page_range = Ok urls <->
  existsb truthy_entry page_range = false /\
  urls = map (fun e => (e, None)) page_range.
Proof.
  unfold range_urls. split.
  - intros H. destruct (existsb truthy_entry page_range) eqn:E.
    + rewrite range_urls_loop_raises in H by exact E. discriminate.
    + rewrite range_urls_loop_gaps in H by exact E. injection H as <-.
      now split.
  - intros [E ->]. now rewrite range_urls_loop_gaps by exact E.
Qed.

Lemma range_urls_returns_witness :
  range_urls widget_routes keys_urlencode
    (mkPageURLGenerator "widget_list" None None None "page"
       (Some "/widgets/list/"%string) [] (Some by_kwarg))
    [None; Some 0] = Ok [(None, None); (Some 0, None)].
Proof.
  apply range_urls_returns. split; reflexivity.
Defined.
